(** * Tusk server: storage access layer, session and password recovery.

    Shallow embedding of the Rust sources of [tusk-server] and [tusk-core]:
    - [src/tusk-server/src/api/storage.rs]   ([PathInfo] and its operations),
    - [src/tusk-server/src/api/session.rs]   ([SessionResource]),
    - [src/tusk-server/src/error.rs]         ([HttpError], [with_authentication_failure]),
    - [src/tusk-server/src/api/account.rs]   ([AccountPasswordResource::put]),
    - [src/tusk-core/src/resources/password_reset.rs] ([PasswordResetRequest]).

    The filesystem is modelled as a list of canonical absolute paths with their
    kind (directory or file with contents); the database tables as lists of rows. *)

From Stdlib Require Import String Ascii List Bool Arith Lia ZArith.
Import ListNotations.
Open Scope string_scope.
Open Scope list_scope.

(** ** Common data *)

(** Rust's [Result<T, E>]. *)
Inductive result (A E : Type) : Type :=
| Ok : A -> result A E
| Err : E -> result A E.
Arguments Ok {A E} _.
Arguments Err {A E} _.

(** [actix_web::http::StatusCode], by its numeric value. *)
Definition StatusCode := nat.

(** [HttpError] of [tusk-server/src/error.rs] (the boxed [inner] cause is
    only used for logging and is left out). *)
Record HttpError := mkHttpError {
  status_code : StatusCode;
  headers : list (string * string);
  body : option string
}.

(** [impl From<StatusCode> for HttpError]. *)
Definition HttpError_from (s : StatusCode) : HttpError :=
  mkHttpError s [] None.

Definition bad_request := HttpError_from 400.
Definition unauthorized := HttpError_from 401.
Definition forbidden := HttpError_from 403.
Definition not_found := HttpError_from 404.
Definition conflict := HttpError_from 409.
Definition internal_server_error := HttpError_from 500.

(** An HTTP response as seen by the client: status, headers, body. *)
Record HttpResponse := mkHttpResponse {
  resp_status : StatusCode;
  resp_headers : list (string * string);
  resp_body : option string
}.

(** [impl ResponseError for HttpError]: [error_response]. *)
Definition error_response (e : HttpError) : HttpResponse :=
  mkHttpResponse (status_code e) (headers e) (body e).

(** [HttpResponse::build(status).finish()]. *)
Definition finish (s : StatusCode) : HttpResponse := mkHttpResponse s [] None.

(** [std::io::ErrorKind], the variants the model produces. *)
Inductive ErrorKind :=
| EK_NotFound
| EK_AlreadyExists
| EK_PermissionDenied
| EK_NotADirectory
| EK_IsADirectory.

Definition ErrorKind_eqb (a b : ErrorKind) : bool :=
  match a, b with
  | EK_NotFound, EK_NotFound | EK_AlreadyExists, EK_AlreadyExists
  | EK_PermissionDenied, EK_PermissionDenied | EK_NotADirectory, EK_NotADirectory
  | EK_IsADirectory, EK_IsADirectory => true
  | _, _ => false
  end.

(** ** Strings *)

(** [str::split('/')]. *)
Fixpoint split_slash_aux (s : string) (cur : string) : list string :=
  match s with
  | EmptyString => [cur]
  | String c rest =>
      if Ascii.eqb c "/"%char then cur :: split_slash_aux rest EmptyString
      else split_slash_aux rest (cur ++ String c EmptyString)
  end.

Definition split_slash (s : string) : list string := split_slash_aux s EmptyString.

(** [str::contains(|c| c == '/' || c == '\\')]. *)
Fixpoint contains_separator (s : string) : bool :=
  match s with
  | EmptyString => false
  | String c rest =>
      (Ascii.eqb c "/"%char || Ascii.eqb c "\"%char) || contains_separator rest
  end.

(** [str::starts_with]. *)
Definition starts_with (s p : string) : bool := String.prefix p s.

Module Fs.

(** A canonical absolute path ([std::path::PathBuf]): its components below [/]. *)
Definition PathBuf := list string.

Fixpoint path_eqb (p q : PathBuf) : bool :=
  match p, q with
  | [], [] => true
  | a :: p', b :: q' => String.eqb a b && path_eqb p' q'
  | _, _ => false
  end.

(** [Path::starts_with]: component-wise prefix. *)
Fixpoint path_starts_with (p base : PathBuf) : bool :=
  match base, p with
  | [], _ => true
  | b :: base', a :: p' => String.eqb a b && path_starts_with p' base'
  | _ :: _, [] => false
  end.

(** [PathBuf::push]: an absolute argument replaces the path, a relative one
    is appended component by component. *)
Definition push (p : PathBuf) (s : string) : PathBuf :=
  if starts_with s "/" then tl (split_slash s) else p ++ split_slash s.

(** A filesystem entry. *)
Inductive kind := Dir | File (contents : string).

(** The filesystem: the existing entries, and the directories in which the
    process may not create or remove entries. *)
Record fs := mkFs {
  entries : list (PathBuf * kind);
  readonly : list PathBuf
}.

Definition lookup (f : fs) (p : PathBuf) : option kind :=
  match find (fun e => path_eqb (fst e) p) (entries f) with
  | Some (_, k) => Some k
  | None => None
  end.

(** [Path::is_dir]. *)
Definition is_dir (f : fs) (p : PathBuf) : bool :=
  match lookup f p with Some Dir => true | _ => false end.

Definition is_readonly (f : fs) (p : PathBuf) : bool :=
  existsb (path_eqb p) (readonly f).

(** [Path::parent] on a canonical path. *)
Definition parent (p : PathBuf) : PathBuf := removelast p.

(** Path-name resolution by the kernel, without symbolic links: every
    intermediate component must be an existing directory; [""] and ["."]
    stay, [".."] goes up (and stays at [/]). *)
Fixpoint walk (f : fs) (cur : PathBuf) (segs : list string) : option PathBuf :=
  match segs with
  | [] => Some cur
  | s :: rest =>
      if negb (is_dir f cur) then None
      else if String.eqb s "" || String.eqb s "." then walk f cur rest
      else if String.eqb s ".." then walk f (parent cur) rest
      else match lookup f (cur ++ [s]) with
           | Some _ => walk f (cur ++ [s]) rest
           | None => None
           end
  end.

(** [std::fs::canonicalize] ([realpath]); all its errors are mapped to
    [NOT FOUND] or [INTERNAL SERVER ERROR] as a whole by the callers, so
    they are not distinguished. *)
Definition canonicalize (f : fs) (p : PathBuf) : option PathBuf :=
  match walk f [] p with
  | Some c => match lookup f c with Some _ => Some c | None => None end
  | None => None
  end.

(** Resolution of all components but the last one, for the calls that
    create or remove the last one. *)
Definition resolve_last (f : fs) (p : PathBuf) : result (PathBuf * string) ErrorKind :=
  match walk f [] (removelast p) with
  | Some d => if is_dir f d then Ok (d, last p "") else Err EK_NotADirectory
  | None => Err EK_NotFound
  end.

Definition is_dot_name (n : string) : bool :=
  String.eqb n "" || String.eqb n "." || String.eqb n "..".

(** [std::fs::create_dir] ([mkdir]). *)
Definition create_dir (f : fs) (p : PathBuf) : fs * result unit ErrorKind :=
  match resolve_last f p with
  | Err e => (f, Err e)
  | Ok (d, n) =>
      if is_dot_name n then (f, Err EK_AlreadyExists)
      else match lookup f (d ++ [n]) with
           | Some _ => (f, Err EK_AlreadyExists)
           | None =>
               if is_readonly f d then (f, Err EK_PermissionDenied)
               else (mkFs ((d ++ [n], Dir) :: entries f) (readonly f), Ok tt)
           end
  end.

(** [tempfile::NamedTempFile::persist]: [rename(2)] of the uploaded
    temporary file onto [p]; an existing file at [p] is atomically replaced. *)
Definition persist (f : fs) (contents : string) (p : PathBuf) : fs * result unit ErrorKind :=
  match resolve_last f p with
  | Err e => (f, Err e)
  | Ok (d, n) =>
      if is_dot_name n then (f, Err EK_IsADirectory)
      else match lookup f (d ++ [n]) with
           | Some Dir => (f, Err EK_IsADirectory)
           | _ =>
               if is_readonly f d then (f, Err EK_PermissionDenied)
               else (mkFs ((d ++ [n], File contents)
                             :: filter (fun e => negb (path_eqb (fst e) (d ++ [n]))) (entries f))
                          (readonly f), Ok tt)
           end
  end.

(** [std::fs::remove_file] ([unlink]). *)
Definition remove_file (f : fs) (p : PathBuf) : fs * result unit ErrorKind :=
  match lookup f p with
  | None => (f, Err EK_NotFound)
  | Some Dir => (f, Err EK_IsADirectory)
  | Some (File _) =>
      if is_readonly f (parent p) then (f, Err EK_PermissionDenied)
      else (mkFs (filter (fun e => negb (path_eqb (fst e) p)) (entries f)) (readonly f), Ok tt)
  end.

(** [std::fs::remove_dir_all]: the directory and everything below it. *)
Definition remove_dir_all (f : fs) (p : PathBuf) : fs * result unit ErrorKind :=
  match lookup f p with
  | None => (f, Err EK_NotFound)
  | Some _ =>
      if is_readonly f (parent p) || existsb (fun r => path_starts_with r p) (readonly f)
      then (f, Err EK_PermissionDenied)
      else (mkFs (filter (fun e => negb (path_starts_with (fst e) p)) (entries f)) (readonly f), Ok tt)
  end.

End Fs.

Module Storage.
Import Fs.

(** [PathInfo] (the [req: HttpRequest] field is only used to build responses
    and is left out). *)
Record PathInfo := mkPathInfo {
  depth : nat;
  root : PathBuf;
  path : PathBuf
}.

(** [impl FromRequest for PathInfo]: [from_request].  [session] is the
    username stored in the session, if any ([SessionRead::try_from]);
    [user_directories] is the configured storage root; [queried_path] is the
    [filename] match of [/storage/{filename:.*}]. *)
Definition from_request (f : fs) (user_directories : PathBuf)
    (session : option string) (queried_path : string) : result PathInfo HttpError :=
  match session with
  | None => Err unauthorized
  | Some initiator =>
      match canonicalize f user_directories with
      | None => Err internal_server_error
      | Some root =>
          if negb (starts_with queried_path ".public/")
             && negb (starts_with queried_path (initiator ++ "/"))
          then Err forbidden
          else
            match canonicalize f (push root queried_path) with
            | None => Err not_found
            | Some path =>
                if negb (path_starts_with path root) then Err not_found
                else
                  let depth := length path - length root in
                  if Nat.eqb depth 0 then Err forbidden
                  else Ok (mkPathInfo (depth - 1) root path)
            end
      end
  end.

(** [PathInfo::create_dir]. *)
Definition create_dir (self : PathInfo) (f : fs) (name : string) : fs * result PathInfo HttpError :=
  if contains_separator name || String.eqb name "." || String.eqb name "..."
  then (f, Err bad_request)
  else
    let p := push (path self) name in
    match Fs.create_dir f p with
    | (f', Ok tt) => (f', Ok (mkPathInfo (S (depth self)) (root self) p))
    | (f', Err EK_AlreadyExists) => (f', Err conflict)
    | (f', Err EK_NotFound) => (f', Err not_found)
    | (f', Err _) => (f', Err internal_server_error)
    end.

(** The HTTP error [PathInfo::create_dir] (below) maps an [io::ErrorKind] to. *)
Definition create_dir_error (e : ErrorKind) : HttpError :=
  match e with
  | EK_AlreadyExists => conflict
  | EK_NotFound => not_found
  | _ => internal_server_error
  end.

(** [actix_multipart::form::tempfile::TempFile]: the uploaded contents and the
    client-supplied file name. *)
Record TempFile := mkTempFile {
  file : string;
  file_name : option string
}.

(** [PathInfo::create_file] on [CreateFileData { payload }]. *)
Definition create_file (self : PathInfo) (f : fs) (payload : TempFile) : fs * result PathInfo HttpError :=
  match file_name payload with
  | None => (f, Err bad_request)
  | Some name =>
      if contains_separator name || String.eqb name "." || String.eqb name "..."
      then (f, Err bad_request)
      else
        let p := push (path self) name in
        match persist f (file payload) p with
        | (f', Ok tt) => (f', Ok (mkPathInfo (S (depth self)) (root self) p))
        | (f', Err _) => (f', Err internal_server_error)
        end
  end.

(** [PathInfo::is_directory]. *)
Definition is_directory (self : PathInfo) (f : fs) : bool := is_dir f (path self).

(** [PathInfo::delete]. *)
Definition delete (self : PathInfo) (f : fs) : fs * result unit HttpError :=
  if Nat.eqb (depth self) 0 then (f, Err not_found)
  else
    let '(f', r) := if is_directory self f then remove_dir_all f (path self)
                    else remove_file f (path self) in
    match r with
    | Ok tt => (f', Ok tt)
    | Err _ => (f', Err not_found)
    end.

(** Lexical cleaning of a relative request path, as the specification
    describes its [Normalize] step (the source has no such step): [""] and
    ["."] segments dropped, [".."] cancels the preceding segment, leading
    [".."] segments kept. *)
Fixpoint clean_segments (acc : list string) (segs : list string) : list string :=
  match segs with
  | [] => rev acc
  | s :: rest =>
      if String.eqb s "" || String.eqb s "." then clean_segments acc rest
      else if String.eqb s ".." then
        match acc with
        | a :: acc' => if String.eqb a ".." then clean_segments (s :: acc) rest
                       else clean_segments acc' rest
        | [] => clean_segments [s] rest
        end
      else clean_segments (s :: acc) rest
  end.

Fixpoint join_slash (segs : list string) : string :=
  match segs with
  | [] => ""
  | [s] => s
  | s :: rest => s ++ "/" ++ join_slash rest
  end.

Definition lexical_clean (q : string) : string := join_slash (clean_segments [] (split_slash q)).

End Storage.

(** ** A sample storage tree

    The layout of the repository's test fixture [srv/storage]: the homes of
    [user] and [admin], the public root, and a file next to the storage root. *)
Module Fixture.
Import Fs Storage.

Definition storage_root : PathBuf := ["srv"; "storage"].

Definition fs0 : fs := mkFs
  [([], Dir); (["srv"], Dir); (storage_root, Dir);
   (storage_root ++ ["user"], Dir);
   (storage_root ++ ["user"; "user.txt"], File "user file");
   (storage_root ++ ["admin"], Dir);
   (storage_root ++ ["admin"; "admin.txt"], File "admin file");
   (storage_root ++ [".public"], Dir);
   (storage_root ++ [".public"; "public.txt"], File "public file");
   (["srv"; "other_file.txt"], File "outside")]
  [].

(** The same tree, where the home of [user] is not writable by the server. *)
Definition fs_ro : fs := mkFs (entries fs0) [storage_root ++ ["user"]].

Definition user_home : PathInfo := mkPathInfo 0 storage_root (storage_root ++ ["user"]).

(** The principal [user] of the fixture, holding no role at all. *)
Definition no_roles (_ : string) : list string := [].

End Fixture.

(** ** Password hashing ([bcrypt]) *)
Module Bcrypt.

(** [bcrypt::DEFAULT_COST]. *)
Definition DEFAULT_COST : nat := 12.

(** A bcrypt hash: its cost factor and what it was computed from (salt and
    digest are not modelled: [verify] succeeds exactly on the hashed password). *)
Record Hash := mkHash { cost : nat; hashed : string }.

(** The observable work of a request: hash computations (their cost) and log
    lines. *)
Inductive event :=
| HashComputed (cost : nat)
| HashVerified (cost : nat)
| LogWarn (msg : string)
| LogInfo (msg : string).

(** [bcrypt::hash(password, cost)]. *)
Definition hash (password : string) (c : nat) : Hash * event :=
  (mkHash c password, HashComputed c).

(** [bcrypt::verify(password, hash)]: costs as much as computing a hash at the
    stored hash's cost. *)
Definition verify (password : string) (h : Hash) : bool * event :=
  (String.eqb (hashed h) password, HashVerified (cost h)).

End Bcrypt.

(** ** [/session] *)
Module Session.
Import Bcrypt.

(** The [user] row read by [SessionResource::post]. *)
Record User := mkUser { username : string; password : Hash }.

(** The errors of [User::read_by_username]: no matching row, or any other
    database error. *)
Inductive QueryError := QueryNotFound | QueryOther.

(** [User::read_by_username]: the first row with that username. *)
Definition read_by_username (users : list User) (name : string) : result User QueryError :=
  match find (fun u => String.eqb (username u) name) users with
  | Some u => Ok u
  | None => Err QueryNotFound
  end.

(** [impl From<tusk_core::error::Error> for HttpError]. *)
Definition http_error_of_query (e : QueryError) : HttpError :=
  match e with
  | QueryNotFound => not_found
  | QueryOther => internal_server_error
  end.

(** [User::fake_password_check]. *)
Definition fake_password_check (password : string) : Hash * event :=
  hash password DEFAULT_COST.

(** [User::verify_password]. *)
Definition verify_password (u : User) (password : string) : bool * event :=
  verify password (Session.password u).

(** [HttpIfError::with_authentication_failure]. *)
Definition with_authentication_failure {A : Type} (r : result A HttpError)
    (username password : string) : result A HttpError * list event :=
  match r with
  | Ok v => (Ok v, [])
  | Err e =>
      if Nat.eqb (status_code e) 404 then
        let warn := LogWarn ("Failed login attempt for user `" ++ username ++ "`") in
        let '(_check, ev) := fake_password_check password in
        (Err (mkHttpError 401 (headers e) (body e)), [warn; ev])
      else (Err e, [])
  end.

(** The server-side session of the request: the stored ["username"], if any. *)
Definition SessionState := option string.

(** [SessionResource::post]: [db] is the database reached through
    [tusk.database_connect()] ([None] when the connection fails).  The result
    carries the events of the request, the session afterwards and the
    handler's result. *)
Definition post (db : option (list User)) (session : SessionState)
    (username password : string)
  : list event * SessionState * result HttpResponse HttpError :=
  match db with
  | None => ([], session, Err internal_server_error)
  | Some users =>
      let looked_up := match read_by_username users username with
                       | Ok u => Ok u
                       | Err e => Err (http_error_of_query e)
                       end in
      let '(r, ev1) := with_authentication_failure looked_up username password in
      match r with
      | Err e => (ev1, session, Err e)
      | Ok user =>
          let '(ok, ev2) := verify_password user password in
          if negb ok then
            (ev1 ++ [ev2; LogWarn ("Failed login attempt for user `" ++ username ++ "`")],
             session, Err unauthorized)
          else
            (ev1 ++ [ev2; LogInfo ("User " ++ username ++ " logged in")],
             Some username, Ok (finish 201))
      end
  end.

(** [SessionResource::delete]: [session.clear(); session.purge()]. *)
Definition delete (session : SessionState) : SessionState * result HttpResponse HttpError :=
  (None, Ok (finish 200)).

(** What the client receives for a handler's result. *)
Definition response_of (r : result HttpResponse HttpError) : HttpResponse :=
  match r with
  | Ok resp => resp
  | Err e => error_response e
  end.

End Session.

(** ** The [password_reset] table *)
Module PasswordReset.
Local Open Scope Z_scope.

(** A row of [password_reset]; times are seconds since the epoch. *)
Record PasswordResetRequest := mkRequest {
  request_id : string;
  user_id : string;
  expiration : Z
}.

Definition Table := list PasswordResetRequest.

(** Modelled from the spec: the column defaults of [password_reset] (the
    migrations are not among the sources).  A new row gets a fresh random
    [request_id] and [expiration = now + 24h]. *)
Definition EXPIRY : Z := 24 * 60 * 60.

(** [PasswordResetRequest::update_table]: deletes every row with
    [expiration < now]. *)
Definition update_table (now : Z) (t : Table) : Table :=
  filter (fun r => negb (expiration r <? now)) t.

(** [PasswordResetRequest::create], in its transaction: purge, then insert the
    row for [user_id] (its key [fresh_id] is the database's random default;
    a key collision fails the insertion and rolls the transaction back). *)
Definition create (now : Z) (fresh_id : string) (uid : string) (t : Table)
  : Table * result PasswordResetRequest HttpError :=
  let t1 := update_table now t in
  if existsb (fun r => String.eqb (request_id r) fresh_id) t1 then (t, Err internal_server_error)
  else
    let r := mkRequest fresh_id uid (now + EXPIRY) in
    (t1 ++ [r], Ok r).

(** [PasswordResetRequest::valid]. *)
Definition valid (now : Z) (r : PasswordResetRequest) : bool := now <=? expiration r.

(** [PasswordResetRequest::delete]: delete the row, then purge. *)
Definition delete (now : Z) (r : PasswordResetRequest) (t : Table) : Table :=
  update_table now (filter (fun x => negb (String.eqb (request_id x) (request_id r))) t).

(** [PasswordResetRequest::from_token], in its transaction: purge at the
    first clock reading, then select the first row with
    [expiration >= now] (second clock reading) and the given token.  No
    such row is [UNAUTHORIZED], an error of the transaction, which rolls the
    purge back. *)
Definition from_token (now_purge now_query : Z) (token : string) (t : Table)
  : Table * result PasswordResetRequest HttpError :=
  let t1 := update_table now_purge t in
  match find (fun r => (now_query <=? expiration r) && String.eqb (request_id r) token) t1 with
  | Some r => (t1, Ok r)
  | None => (t, Err unauthorized)
  end.

End PasswordReset.

(** ** [PUT /account/password] *)
Module Account.
Import Bcrypt PasswordReset.

(** A row of the [user] table. *)
Record User := mkUser {
  user_id : string;
  email : string;
  display : string;
  password : Hash
}.

(** The database touched by the handler. *)
Record Db := mkDb {
  users : list User;
  password_reset : Table
}.

(** The server state: the database and the session store, which maps a
    session key to its [auth_session] entry: the id of the account logged in
    with it, if any. *)
Record Store := mkStore {
  db : Db;
  sessions : list (string * option string)
}.

(** The parts of the request context ([Tusk]) the handler depends on and
    which lie outside the modelled code: the clock, the random key the
    database gives a new reset row, the [zxcvbn] strength estimator, the
    parsing of the target's mailbox, the mail transport, and [Uuid::from_str]. *)
Record Env := mkEnv {
  now : Z;
  fresh_id : string;
  zxcvbn_score : string -> list string -> nat;
  mailbox : User -> option string;
  send_email : string -> string -> bool;
  uuid_from_str : string -> option string
}.

(** [AccountProofType]. *)
Inductive AccountProofType := ProofNone | ProofPassword | ProofToken.

(** [AccountPasswordPutData]. *)
Record AccountPasswordPutData := mkPutData {
  put_email : string;
  put_password : option string;
  put_proof : option string;
  put_proof_type : AccountProofType
}.

(** The handler's transaction: a state and error monad over the database. *)
Definition M (A : Type) := Db -> result (A * Db) HttpError.
Definition ret {A : Type} (a : A) : M A := fun d => Ok (a, d).
Definition bind {A B : Type} (m : M A) (k : A -> M B) : M B :=
  fun d => match m d with
           | Ok (a, d') => k a d'
           | Err e => Err e
           end.
Definition fail {A : Type} (e : HttpError) : M A := fun _ => Err e.
Definition lift {A : Type} (r : result A HttpError) : M A :=
  fun d => match r with Ok a => Ok (a, d) | Err e => Err e end.
Notation "x <- m ;; k" := (bind m (fun x => k))
  (at level 61, m at next level, right associativity).

(** [TuskError::unprocessable_entity().with_text(..)]. *)
Definition unprocessable_entity (text : string) : HttpError := mkHttpError 422 [] (Some text).

(** [verify_password_strength]. *)
Definition verify_password_strength (env : Env) (pw : string) (user_inputs : list string)
  : result unit HttpError :=
  if Nat.ltb (String.length pw) 8 then Err (unprocessable_entity "The new password is too small.")
  else if Nat.ltb 70 (String.length pw) then Err (unprocessable_entity "The new password is too large.")
  else if Nat.ltb (zxcvbn_score env pw user_inputs) 3
  then Err (unprocessable_entity "The new password is too weak.")
  else Ok tt.

(** [User::from_email]. *)
Definition from_email (email_ : string) : M (option User) :=
  fun d => Ok (find (fun u => String.eqb (email u) email_) (users d), d).

(** [User::from_id]: a missing row is the query error [NotFound]. *)
Definition from_id (uid : string) : M User :=
  fun d => match find (fun u => String.eqb (user_id u) uid) (users d) with
           | Some u => Ok (u, d)
           | None => Err not_found
           end.

(** [User::update_password]. *)
Definition update_password (target : User) (pw : string) : M User :=
  fun d =>
    let h := fst (hash pw DEFAULT_COST) in
    match find (fun u => String.eqb (user_id u) (user_id target)) (users d) with
    | None => Err not_found
    | Some u =>
        let u' := mkUser (user_id u) (email u) (display u) h in
        Ok (u', mkDb (map (fun x => if String.eqb (user_id x) (user_id target) then u' else x)
                          (users d))
                     (password_reset d))
    end.

(** [User::verify_password]. *)
Definition verify_password (u : User) (proof : string) : bool :=
  fst (verify proof (password u)).

(** [User::request_password_reset] ([PasswordResetRequest::create]). *)
Definition request_password_reset (env : Env) (target : User) : M PasswordResetRequest :=
  fun d => match create (now env) (fresh_id env) (user_id target) (password_reset d) with
           | (t, Ok r) => Ok (r, mkDb (users d) t)
           | (_, Err e) => Err e
           end.

(** [PasswordResetRequest::from_token], both clock readings at [now]. *)
Definition request_from_token (env : Env) (token : string) : M PasswordResetRequest :=
  fun d => match from_token (now env) (now env) token (password_reset d) with
           | (t, Ok r) => Ok (r, mkDb (users d) t)
           | (_, Err e) => Err e
           end.

(** [PasswordResetRequest::delete]. *)
Definition request_delete (env : Env) (r : PasswordResetRequest) : M unit :=
  fun d => Ok (tt, mkDb (users d) (PasswordReset.delete (now env) r (password_reset d))).

(** Building the message for [target.mailbox()?] and [tusk.send_email(..)?]. *)
Definition notify (env : Env) (target : User) (subject : string) : M unit :=
  match mailbox env target with
  | None => fail internal_server_error
  | Some to => if send_email env to subject then ret tt else fail internal_server_error
  end.

(** [tusk.authenticate()] followed by [auth_session.user(db)?]: a request
    without a logged-in session has no initiator. *)
Definition initiator_of (sessions_ : list (string * option string)) (sid : string)
  : M (option User) :=
  match find (fun e => String.eqb (fst e) sid) sessions_ with
  | Some (_, Some uid) => u <- from_id uid ;; ret (Some u)
  | _ => ret None
  end.

(** The body of the transaction of [AccountPasswordResource::put], up to the
    response it computes. *)
Definition put_body (env : Env) (sessions_ : list (string * option string)) (sid : string)
    (data : AccountPasswordPutData) : M HttpResponse :=
  initiator <- initiator_of sessions_ sid ;;
  target <- from_email (put_email data) ;;
  match initiator, target, put_proof_type data, put_proof data, put_password data with
  | Some i, Some t, ProofPassword, Some proof, Some pw =>
      if String.eqb (user_id i) (user_id t) then
        if verify_password t proof then
          _ <- lift (verify_password_strength env pw [email t; display t; "Tusk"]) ;;
          t' <- update_password t pw ;;
          _ <- notify env t' "Password change" ;;
          ret (finish 204)
        else fail unauthorized
      else fail forbidden
  | Some _, _, ProofPassword, Some _, Some _ => fail forbidden
  | None, _, ProofPassword, Some _, Some _ => fail unauthorized
  | None, Some t, ProofNone, None, None =>
      request <- request_password_reset env t ;;
      _ <- notify env t "Password reset" ;;
      ret (finish 202)
  | None, None, ProofNone, None, None => ret (finish 202)
  | None, Some t, ProofToken, Some token, Some pw =>
      match uuid_from_str env token with
      | None => fail bad_request
      | Some token =>
          request <- request_from_token env token ;;
          _ <- lift (verify_password_strength env pw [email t; display t; "Tusk"]) ;;
          t' <- update_password t pw ;;
          _ <- request_delete env request ;;
          _ <- notify env t' "Password change" ;;
          ret (finish 204)
      end
  | _, _, _, _, _ => fail bad_request
  end.

(** [Tusk::log_out]: [session.clear(); session.purge()] on the caller's
    session. *)
Definition log_out (sessions_ : list (string * option string)) (sid : string)
  : list (string * option string) :=
  filter (fun e => negb (String.eqb (fst e) sid)) sessions_.

(** [AccountPasswordResource::put]: the body runs in a database transaction,
    rolled back on error; on success the caller is logged out. *)
Definition put (env : Env) (st : Store) (sid : string) (data : AccountPasswordPutData)
  : Store * result HttpResponse HttpError :=
  match put_body env (sessions st) sid data (db st) with
  | Ok (resp, d') => (mkStore d' (log_out (sessions st) sid), Ok resp)
  | Err e => (st, Err e)
  end.

End Account.

(** ** Sample accounts *)
Module AccountFixture.
Import Bcrypt PasswordReset Account.

Definition alice : User := mkUser "id-alice" "alice@example.com" "Alice" (mkHash DEFAULT_COST "alice#old").
Definition bob : User := mkUser "id-bob" "bob@example.com" "Bob" (mkHash DEFAULT_COST "bob#old").

(** [bob] has an unexpired reset token; an expired one of [alice] is left
    over.  [sid-alice] is the session of [alice]; [sid-anon] a session with
    nobody logged in. *)
Definition store0 : Store :=
  mkStore (mkDb [alice; bob]
                [mkRequest "token-bob" "id-bob" 5000%Z; mkRequest "token-old" "id-alice" 10%Z])
          [("sid-alice", Some "id-alice"); ("sid-anon", None); ("sid-bob", Some "id-bob")].

(** A context where the clock reads 1000, every password scores 4, and every
    mail goes through. *)
Definition env0 : Env :=
  mkEnv 1000%Z "token-new" (fun _ _ => 4) (fun u => Some (email u)) (fun _ _ => true)
        (fun s => Some s).

End AccountFixture.

(** ** The rest of [storage.rs]: timestamps, upload forms, listings and the
    [/storage] handlers *)
Module StorageApi.
Import Fs Storage.

Section Time.
Local Open Scope Z_scope.

Definition NANOS : Z := 1000000000.

(** [x as u64]. *)
Definition as_u64 (x : Z) : Z := x mod 2 ^ 64.

(** [x as i64], and the wrapping [i64] arithmetic of the release build. *)
Definition as_i64 (x : Z) : Z :=
  let m := x mod 2 ^ 64 in if 2 ^ 63 <=? m then m - 2 ^ 64 else m.

End Time.

(** [SystemTime], as signed nanoseconds from [UNIX_EPOCH]. *)
Definition SystemTime := Z.

(** [system_type_from_epoch_delta]. *)
Definition system_type_from_epoch_delta (delta : Z) : SystemTime :=
  if (0 <? delta)%Z then (as_u64 delta * NANOS)%Z
  else (- (as_u64 (as_i64 (- delta)) * NANOS))%Z.

(** The [into_lossy_secs] closure of [StoragePathRead::from_path]: [None] is
    an I/O error of the time query; [duration_since(UNIX_EPOCH)] is [Ok] for a
    time at or after the epoch and [Err] with the distance otherwise, and
    [as_secs] drops the sub-second part. *)
Definition into_lossy_secs (time_result : option SystemTime) : Z :=
  match time_result with
  | Some time =>
      if (0 <=? time)%Z then as_i64 (time / NANOS)
      else as_i64 (- as_i64 ((- time) / NANOS))
  | None => 0%Z
  end.

(** [CreatePathKind]. *)
Inductive CreatePathKind := CreatePathKind_File | CreatePathKind_Directory.

Definition CreatePathKind_eqb (a b : CreatePathKind) : bool :=
  match a, b with
  | CreatePathKind_File, CreatePathKind_File
  | CreatePathKind_Directory, CreatePathKind_Directory => true
  | _, _ => false
  end.

(** [CreatePathAttributes]. *)
Record CreatePathAttributes := mkCreatePathAttributes {
  attr_kind : CreatePathKind;
  attr_name : string;
  attr_created : option Z;
  attr_last_access : option Z;
  attr_last_modified : option Z
}.

(** [CreatePathData], the multipart form of [POST /storage/..]. *)
Record CreatePathData := mkCreatePathData {
  metadata : option CreatePathAttributes;
  payload : option TempFile
}.

(** [CreatePathData::is_directory]. *)
Definition CreatePathData_is_directory (self : CreatePathData) : bool :=
  match payload self with
  | Some _ => false
  | None =>
      match metadata self with
      | Some m => CreatePathKind_eqb (attr_kind m) CreatePathKind_Directory
      | None => false
      end
  end.

(** [CreatePathData::is_file]. *)
Definition CreatePathData_is_file (self : CreatePathData) : bool :=
  match payload self with
  | None => false
  | Some _ =>
      match metadata self with
      | Some m => CreatePathKind_eqb (attr_kind m) CreatePathKind_File
      | None => false
      end
  end.

(** [impl TryFrom<CreatePathData> for CreateFileData]: its [payload]. *)
Definition CreateFileData_try_from (value : CreatePathData) : result TempFile HttpError :=
  match payload value with
  | None => Err bad_request
  | Some _ =>
      match metadata value with
      | None => Err bad_request
      | Some m =>
          if negb (CreatePathKind_eqb (attr_kind m) CreatePathKind_File) then Err bad_request
          else match payload value with
               | Some p => Ok p
               | None => Err bad_request
               end
      end
  end.

(** [impl TryFrom<CreatePathData> for CreateDirectoryData]: its [name]. *)
Definition CreateDirectoryData_try_from (value : CreatePathData) : result string HttpError :=
  match payload value with
  | Some _ => Err bad_request
  | None =>
      match metadata value with
      | None => Err bad_request
      | Some m =>
          if negb (CreatePathKind_eqb (attr_kind m) CreatePathKind_Directory) then Err bad_request
          else Ok (attr_name m)
      end
  end.

(** [StoragePathReadKind]. *)
Inductive StoragePathReadKind :=
| StoragePathReadKind_File (size : nat)
| StoragePathReadKind_Directory (children : nat)
| StoragePathReadKind_None.

(** [StoragePathRead]. *)
Record StoragePathRead := mkStoragePathRead {
  filename : string;
  read_kind : StoragePathReadKind;
  created : Z;
  last_access : Z;
  last_modified : Z
}.

(** The creation, access and modification times [Metadata] reports for a
    path ([None]: the platform or filesystem does not provide it). *)
Definition Times := PathBuf -> option SystemTime * option SystemTime * option SystemTime.

(** [q] is an entry directly below [p]. *)
Definition is_child (p q : PathBuf) : bool :=
  Nat.eqb (length q) (S (length p)) && path_starts_with q p.

(** [std::fs::read_dir]: the paths of the entries directly below [p]. *)
Definition read_dir (f : fs) (p : PathBuf) : list PathBuf :=
  map fst (filter (fun e => is_child p (fst e)) (entries f)).

(** [Path::file_name]: [None] for [/] and for a path ending in [..]. *)
Definition path_file_name (p : PathBuf) : option string :=
  match rev p with
  | [] => None
  | n :: _ => if String.eqb n ".." then None else Some n
  end.

(** [StoragePathRead::from_path]. *)
Definition from_path (f : fs) (times : Times) (p : PathBuf) : result StoragePathRead HttpError :=
  match lookup f p with
  | None => Err not_found
  | Some k =>
      let kind := match k with
                  | Dir => StoragePathReadKind_Directory
                             (length (filter (fun q => is_dir f q) (read_dir f p)))
                  | File c => StoragePathReadKind_File (String.length c)
                  end in
      match path_file_name p with
      | None => Err not_found
      | Some n =>
          let '(c, a, m) := times p in
          Ok (mkStoragePathRead n kind (into_lossy_secs c) (into_lossy_secs a) (into_lossy_secs m))
      end
  end.

(** A JSON value, as far as [StoragePathRead] uses them. *)
Inductive Json := JString (s : string) | JNumber (n : Z).

(** [impl Serialize for StoragePathRead]: the length announced to
    [serialize_map] and the entries written, in order. *)
Definition serialize (self : StoragePathRead) : nat * list (string * Json) :=
  let '(add_len, kind, size, children) :=
    match read_kind self with
    | StoragePathReadKind_File size => (1, "file", Some size, None)
    | StoragePathReadKind_Directory children => (1, "directory", None, Some children)
    | StoragePathReadKind_None => (0, "none", None, None)
    end in
  (5 + add_len,
   [("filename", JString (filename self)); ("kind", JString kind)]
   ++ match size with Some s => [("size", JNumber (Z.of_nat s))] | None => [] end
   ++ match children with Some c => [("children", JNumber (Z.of_nat c))] | None => [] end
   ++ [("created", JNumber (created self));
       ("last_access", JNumber (last_access self));
       ("last_modified", JNumber (last_modified self))]).

(** [Iterator::collect::<Result<Vec<_>, _>>]: the first error, if any. *)
Fixpoint collect {A E : Type} (l : list (result A E)) : result (list A) E :=
  match l with
  | [] => Ok []
  | Ok a :: rest => match collect rest with Ok l' => Ok (a :: l') | Err e => Err e end
  | Err e :: _ => Err e
  end.

(** [PathInfo::list_children]. *)
Definition list_children (self : PathInfo) (f : fs) (times : Times)
  : result (list StoragePathRead) HttpError :=
  if negb (is_dir f (path self)) then Err conflict
  else match collect (map (from_path f times) (read_dir f (path self))) with
       | Ok l => Ok l
       | Err _ => Err not_found
       end.

(** [PathInfo::info]. *)
Definition info (self : PathInfo) (f : fs) (times : Times) : result StoragePathRead HttpError :=
  from_path f times (path self).

(** [PathInfo::request_path]: the components below the root, joined by [/]. *)
Definition request_path (self : PathInfo) : string :=
  join_slash (skipn (length (root self)) (path self)).

(** [StorageResource::post]: the response, with the [StoragePathRead]
    it sends as JSON body. *)
Definition StorageResource_post (self : PathInfo) (f : fs) (times : Times) (data : CreatePathData)
  : fs * result (HttpResponse * option StoragePathRead) HttpError :=
  if CreatePathData_is_directory data then
    match CreateDirectoryData_try_from data with
    | Err e => (f, Err e)
    | Ok directory_data =>
        match Storage.create_dir self f directory_data with
        | (f', Err e) => (f', Err e)
        | (f', Ok child) =>
            match info child f' times with
            | Err e => (f', Err e)
            | Ok attr =>
                (f', Ok (mkHttpResponse 201
                           [("location", ("/v1/storage/" ++ request_path child ++ "/")%string);
                            ("content-type", "application/json")] None, Some attr))
            end
        end
    end
  else if CreatePathData_is_file data then
    match CreateFileData_try_from data with
    | Err e => (f, Err e)
    | Ok file_data =>
        match Storage.create_file self f file_data with
        | (f', Err e) => (f', Err e)
        | (f', Ok child) =>
            match info child f' times with
            | Err e => (f', Err e)
            | Ok attr =>
                (f', Ok (mkHttpResponse 201
                           [("location", ("/v1/storage/" ++ request_path child)%string);
                            ("content-type", "application/json")] None, Some attr))
            end
        end
    end
  else (f, Ok (finish 400, None)).

(** [StorageResource::delete]. *)
Definition StorageResource_delete (self : PathInfo) (f : fs) : fs * result HttpResponse HttpError :=
  match Storage.delete self f with
  | (f', Ok tt) => (f', Ok (finish 200))
  | (f', Err e) => (f', Err e)
  end.

End StorageApi.

(** ** [GET /session] *)
Module SessionApi.
Import Session.

(** [SessionRead]: the username of the session. *)
Definition SessionRead := string.

(** [impl TryFrom<Session> for SessionRead]. *)
Definition SessionRead_try_from (value : SessionState) : result SessionRead HttpError :=
  match value with
  | Some username => Ok username
  | None => Err unauthorized
  end.

(** [SessionResource::get]: the response, with the [SessionRead] it sends as
    JSON body. *)
Definition get (session : SessionState) : result (HttpResponse * SessionRead) HttpError :=
  match SessionRead_try_from session with
  | Err e => Err unauthorized
  | Ok s => Ok (mkHttpResponse 200 [("content-type", "application/json")] None, s)
  end.

End SessionApi.

(** ** Sample upload forms *)
Module StorageApiFixture.
Import Fs Storage StorageApi.

(** A filesystem that reports no timestamps. *)
Definition times0 : Times := fun _ => (None, None, None).

(** The form of [CreatePathData::new_directory("docs")]. *)
Definition dir_form : CreatePathData :=
  mkCreatePathData (Some (mkCreatePathAttributes CreatePathKind_Directory "docs" None None None)) None.

(** The form of [CreatePathData::new_file("notes.txt", "Hi")]. *)
Definition file_form : CreatePathData :=
  mkCreatePathData (Some (mkCreatePathAttributes CreatePathKind_File "notes.txt" None None None))
                   (Some (mkTempFile "Hi" (Some "notes.txt"))).

End StorageApiFixture.

(** * Properties *)

Module StorageProofs.
Import Fs Storage Fixture.

(** C1.  [from_request] makes its ownership check on the raw requested path,
    never cleaned lexically, so [user] reaches the home of [admin] through
    ["user/../admin/admin.txt"]: the path cleans to ["admin/admin.txt"], which
    starts neither with [".public/"] nor with ["user/"] and lies in the home
    of [admin], yet the request is accepted (instead of [FORBIDDEN]) and
    resolves to [admin]'s file. *)
Lemma from_request_other_home_through_own_prefix :
  lexical_clean "user/../admin/admin.txt" = "admin/admin.txt" /\
  starts_with (lexical_clean "user/../admin/admin.txt") ".public/" = false /\
  starts_with (lexical_clean "user/../admin/admin.txt") "user/" = false /\
  from_request fs0 storage_root (Some "user") "user/../admin/admin.txt"
  = Ok (mkPathInfo 1 storage_root (storage_root ++ ["admin"; "admin.txt"])) /\
  path_starts_with (storage_root ++ ["admin"; "admin.txt"]) (storage_root ++ ["admin"]) = true /\
  lookup fs0 (storage_root ++ ["admin"; "admin.txt"]) <> None.
Proof. repeat split; try reflexivity. simpl. discriminate. Qed.

(** C4 (as amended).  [from_request] has no role gate: it never consults the
    role store.  It refuses a request with no username in the session with
    [UNAUTHORIZED], and accepts any request of a logged-in user for an
    existing path below their own root, whatever roles that user holds. *)
Theorem from_request_no_role_gate (f : fs) (user_directories root p : PathBuf)
    (u q : string)
    (Hroot : canonicalize f user_directories = Some root)
    (Hown : starts_with q (u ++ "/") = true)
    (Hpath : canonicalize f (push root q) = Some p)
    (Hin : path_starts_with p root = true)
    (Hdepth : length root < length p) :
  from_request f user_directories None q = Err unauthorized /\
  from_request f user_directories (Some u) q
  = Ok (mkPathInfo (length p - length root - 1) root p).
Proof.
  split; [reflexivity|].
  unfold from_request. rewrite Hroot, Hown, Hpath, Hin.
  simpl negb. rewrite andb_false_r.
  destruct (Nat.eqb (length p - length root) 0) eqn:Hd.
  - apply Nat.eqb_eq in Hd. lia.
  - reflexivity.
Qed.

Lemma from_request_no_role_gate_witness :
  ~ In "directory" (no_roles "user") /\
  from_request fs0 storage_root (Some "user") "user/user.txt"
  = Ok (mkPathInfo 1 storage_root (storage_root ++ ["user"; "user.txt"])).
Proof.
  split; [intros []|].
  exact (proj2 (from_request_no_role_gate fs0 storage_root storage_root
                  (storage_root ++ ["user"; "user.txt"]) "user" "user/user.txt"
                  eq_refl eq_refl eq_refl eq_refl ltac:(simpl; lia))).
Defined.

(** C4 fails as stated: [user] holds no ["directory"] role and still reads
    [user/user.txt]. *)
Lemma from_request_without_directory_role :
  ~ In "directory" (no_roles "user") /\
  exists pi, from_request fs0 storage_root (Some "user") "user/user.txt" = Ok pi.
Proof. split; [intros []|]. eexists. reflexivity. Qed.

(** C6 (as amended).  [PathInfo::create_dir] refuses a name that contains
    ['/'] or ['\\'] or is ["."] with [BAD REQUEST], leaving the filesystem
    unchanged.  For a name its check accepts, the directory is created by one
    [create_dir] call: on success the child path is returned one level
    deeper; [AlreadyExists] becomes [CONFLICT], [NotFound] becomes
    [NOT FOUND], and every other error, a permission error included, becomes
    [INTERNAL SERVER ERROR]. *)
Theorem create_dir_name_check_and_errors (self : PathInfo) (f : fs) (name : string) :
  ((contains_separator name = true \/ name = ".") ->
     create_dir self f name = (f, Err bad_request)) /\
  ((contains_separator name = false /\ name <> "." /\ name <> "...") ->
     forall f' r, Fs.create_dir f (push (path self) name) = (f', r) ->
     create_dir self f name =
       (f', match r with
            | Ok _ => Ok (mkPathInfo (S (depth self)) (root self) (push (path self) name))
            | Err e => Err (create_dir_error e)
            end)).
Proof.
  split.
  - intros [H | ->]; [|reflexivity].
    unfold create_dir. rewrite H. reflexivity.
  - intros (Hsep & Hdot & Hdots) f' r Hcd.
    unfold create_dir. rewrite Hsep.
    apply String.eqb_neq in Hdot, Hdots. rewrite Hdot, Hdots. simpl.
    rewrite Hcd. destruct r as [[]|[]]; reflexivity.
Qed.

Lemma create_dir_name_check_and_errors_witness :
  create_dir user_home fs0 "a/b" = (fs0, Err bad_request) /\
  create_dir user_home fs_ro "docs" = (fs_ro, Err internal_server_error).
Proof.
  split.
  - apply (proj1 (create_dir_name_check_and_errors user_home fs0 "a/b")).
    left. reflexivity.
  - refine (proj2 (create_dir_name_check_and_errors user_home fs_ro "docs") _
              fs_ro (Err EK_PermissionDenied) eq_refl).
    split; [reflexivity|]. split; discriminate.
Defined.

(** C6 fails as stated: creating a directory in a home the server may not
    write to is a permission error, answered with [INTERNAL SERVER ERROR]
    (the documented catch-all of [create_dir]), not [FORBIDDEN]. *)
Lemma create_dir_permission_error_not_forbidden :
  Fs.create_dir fs_ro (storage_root ++ ["user"; "docs"]) = (fs_ro, Err EK_PermissionDenied) /\
  create_dir user_home fs_ro "docs" = (fs_ro, Err internal_server_error) /\
  internal_server_error <> forbidden.
Proof. repeat split; try reflexivity. discriminate. Qed.

(** The name [".."] passes the check of [PathInfo::create_dir] (which tests
    for ["..."]) and is answered with [CONFLICT], not [BAD REQUEST]. *)
Lemma create_dir_dotdot_conflict :
  create_dir user_home fs0 ".." = (fs0, Err conflict).
Proof. reflexivity. Qed.

(** C3.  [PathInfo::create_file] moves the upload into place with one
    [persist], which replaces an existing file: uploading [user.txt] into the
    home of [user], where [user.txt] already exists, succeeds (no
    [CONFLICT]) and the old contents are gone, whereas [PathInfo::create_dir]
    answers [CONFLICT] for that same existing name. *)
Lemma create_file_replaces_existing :
  lookup fs0 (storage_root ++ ["user"; "user.txt"]) = Some (File "user file") /\
  (exists f' pi,
    create_file user_home fs0 (mkTempFile "new contents" (Some "user.txt")) = (f', Ok pi) /\
    lookup f' (storage_root ++ ["user"; "user.txt"]) = Some (File "new contents")) /\
  create_dir user_home fs0 "user.txt" = (fs0, Err conflict).
Proof. split; [reflexivity|]. split; [do 2 eexists; split; reflexivity|reflexivity]. Qed.

(** C7 (as amended).  [PathInfo::delete] answers [NOT FOUND] and removes
    nothing when the path has depth 0 (a home root or the public root); at
    depth above 0 a missing target also gives [NOT FOUND], with the
    filesystem unchanged. *)
Theorem delete_root_and_missing (self : PathInfo) (f : fs) :
  (depth self = 0 -> delete self f = (f, Err not_found)) /\
  (lookup f (path self) = None -> delete self f = (f, Err not_found)).
Proof.
  split.
  - intros H. unfold delete. rewrite H. reflexivity.
  - intros H. unfold delete.
    destruct (Nat.eqb (depth self) 0); [reflexivity|].
    unfold is_directory, is_dir, remove_file. rewrite H. reflexivity.
Qed.

Lemma delete_root_and_missing_witness :
  delete user_home fs0 = (fs0, Err not_found) /\
  delete (mkPathInfo 1 storage_root (storage_root ++ ["user"; "gone.txt"])) fs0
  = (fs0, Err not_found).
Proof.
  split.
  - exact (proj1 (delete_root_and_missing user_home fs0) eq_refl).
  - exact (proj2 (delete_root_and_missing
                    (mkPathInfo 1 storage_root (storage_root ++ ["user"; "gone.txt"])) fs0)
                 eq_refl).
Defined.

(** C7 fails as stated: deleting the home root of [user] (depth 0) is
    answered with [NOT FOUND], as the repository's test
    [cannot_delete_user_root] expects, not with [FORBIDDEN]. *)
Lemma delete_home_root_not_forbidden :
  delete user_home fs0 = (fs0, Err not_found) /\ not_found <> forbidden.
Proof. split; [reflexivity | discriminate]. Qed.

End StorageProofs.

Module SessionProofs.
Import Bcrypt Session.

(** C5.  A login attempt for a username with no account computes a bcrypt
    hash at the cost of a stored account hash before it returns, leaves the
    session alone, and gets exactly the response of an attempt with a known
    username and a wrong password: [401] with the same (empty) headers and
    body.  Every stored hash is computed at [DEFAULT_COST] by the sources. *)
Theorem post_unknown_user_like_wrong_password
    (users1 users2 : list User) (s1 s2 : SessionState)
    (name1 pw1 name2 pw2 : string) (u : User)
    (Hunknown : read_by_username users1 name1 = Err QueryNotFound)
    (Hknown : read_by_username users2 name2 = Ok u)
    (Hwrong : hashed (password u) <> pw2)
    (Hcost : cost (password u) = DEFAULT_COST) :
  let '(ev1, s1', r1) := post (Some users1) s1 name1 pw1 in
  let '(ev2, s2', r2) := post (Some users2) s2 name2 pw2 in
  In (HashComputed (cost (password u))) ev1 /\
  In (HashVerified (cost (password u))) ev2 /\
  s1' = s1 /\ s2' = s2 /\
  response_of r1 = response_of r2 /\ resp_status (response_of r1) = 401.
Proof.
  unfold post. rewrite Hunknown, Hknown. simpl.
  unfold verify_password, verify.
  apply String.eqb_neq in Hwrong. rewrite Hwrong. simpl.
  rewrite Hcost. repeat split; auto.
Qed.

Lemma post_unknown_user_like_wrong_password_witness :
  let users := [mkUser "user" (mkHash DEFAULT_COST "user#vX78")] in
  let '(ev1, s1', r1) := post (Some users) None "not_user" "1234567890" in
  let '(ev2, s2', r2) := post (Some users) None "user" "not user's password" in
  In (HashComputed DEFAULT_COST) ev1 /\ In (HashVerified DEFAULT_COST) ev2 /\
  s1' = None /\ s2' = None /\
  response_of r1 = response_of r2 /\ resp_status (response_of r1) = 401.
Proof.
  exact (post_unknown_user_like_wrong_password
           [mkUser "user" (mkHash DEFAULT_COST "user#vX78")]
           [mkUser "user" (mkHash DEFAULT_COST "user#vX78")] None None
           "not_user" "1234567890" "user" "not user's password"
           (mkUser "user" (mkHash DEFAULT_COST "user#vX78"))
           eq_refl eq_refl ltac:(discriminate) eq_refl).
Defined.

(** C10 (as amended).  [DELETE /session] clears and purges the caller's
    session and answers [200 OK] with an empty body. *)
Theorem delete_clears_session_with_ok (s : SessionState) :
  let '(s', r) := delete s in s' = None /\ response_of r = finish 200.
Proof. split; reflexivity. Qed.

(** C10 fails as stated: the status of [DELETE /session] is 200, not 204
    (the repository's test [delete_session] expects [OK]). *)
Lemma delete_session_status_not_204 :
  resp_status (response_of (snd (delete (Some "user")))) = 200 /\
  resp_status (response_of (snd (delete (Some "user")))) <> 204.
Proof. split; [reflexivity | discriminate]. Qed.

End SessionProofs.

Module PasswordResetProofs.
Import PasswordReset.
Local Open Scope Z_scope.

Lemma update_table_spec (now : Z) (t : Table) (x : PasswordResetRequest) :
  In x (update_table now t) <-> In x t /\ now <= expiration x.
Proof.
  unfold update_table. rewrite filter_In.
  destruct (expiration x <? now) eqn:E; simpl.
  - apply Z.ltb_lt in E. split; [intros [_ H]; discriminate | lia].
  - apply Z.ltb_ge in E. tauto.
Qed.

(** C8.  Issuing a reset request first deletes every row with
    [expiration < now], then adds exactly one row: afterwards every row is
    unexpired and the table holds one row more than the unexpired rows it
    had.  Retrieval by token first deletes the expired rows too and then
    queries the purged table: a row it returns matches the token, has
    [expiration >= now] at the query (and at the purge), comes from the
    table, and the purge is kept; when no row matches both the token and
    [expiration >= now] it answers [UNAUTHORIZED], and its transaction rolls
    the purge back, so the table is left as it was. *)
Theorem password_reset_purges_expired :
  (forall now fresh uid t t' r,
     create now fresh uid t = (t', Ok r) ->
     t' = update_table now t ++ [r] /\
     expiration r = now + EXPIRY /\
     (forall x, In x t' -> now <= expiration x) /\
     length t' = S (length (update_table now t))) /\
  (forall now_purge now_query token t,
     (forall t' r, from_token now_purge now_query token t = (t', Ok r) ->
        t' = update_table now_purge t /\
        request_id r = token /\ now_query <= expiration r /\ now_purge <= expiration r /\
        In r t) /\
     ((forall r, In r t -> request_id r = token -> expiration r < now_query) ->
        from_token now_purge now_query token t = (t, Err unauthorized))).
Proof.
  split.
  - intros now fresh uid t t' r H. unfold create in H.
    destruct (existsb _ _); [discriminate|].
    inversion H; subst; clear H.
    split; [reflexivity|]. split; [reflexivity|]. split.
    + intros x Hx. apply in_app_or in Hx as [Hx | [<- | []]].
      * apply update_table_spec in Hx. tauto.
      * simpl. unfold EXPIRY. lia.
    + rewrite length_app. simpl. lia.
  - intros now_purge now_query token t. unfold from_token.
    destruct (find _ (update_table now_purge t)) as [r|] eqn:F; split.
    + intros t' r' [= <- <-].
      apply find_some in F as [Hin Hr].
      apply andb_prop in Hr as [H1 H2].
      apply String.eqb_eq in H2. apply Z.leb_le in H1.
      apply update_table_spec in Hin. split; [reflexivity|]. tauto.
    + intros Hnone.
      apply find_some in F as [Hin Hr].
      apply andb_prop in Hr as [H1 H2].
      apply String.eqb_eq in H2. apply Z.leb_le in H1.
      apply update_table_spec in Hin as [Hin _].
      specialize (Hnone r Hin H2). lia.
    + intros t' r' H. discriminate.
    + intros _. reflexivity.
Qed.

Lemma password_reset_purges_expired_witness :
  create 1000 "token-new" "id-alice"
    [mkRequest "token-bob" "id-bob" 5000; mkRequest "token-old" "id-alice" 10]
  = ([mkRequest "token-bob" "id-bob" 5000; mkRequest "token-new" "id-alice" (1000 + EXPIRY)],
     Ok (mkRequest "token-new" "id-alice" (1000 + EXPIRY))) /\
  (forall x, In x [mkRequest "token-bob" "id-bob" 5000;
                   mkRequest "token-new" "id-alice" (1000 + EXPIRY)] -> 1000 <= expiration x) /\
  from_token 1000 1000 "token-old"
    [mkRequest "token-bob" "id-bob" 5000; mkRequest "token-old" "id-alice" 10]
  = ([mkRequest "token-bob" "id-bob" 5000; mkRequest "token-old" "id-alice" 10], Err unauthorized).
Proof.
  assert (Hc : create 1000 "token-new" "id-alice"
                 [mkRequest "token-bob" "id-bob" 5000; mkRequest "token-old" "id-alice" 10]
               = ([mkRequest "token-bob" "id-bob" 5000;
                   mkRequest "token-new" "id-alice" (1000 + EXPIRY)],
                  Ok (mkRequest "token-new" "id-alice" (1000 + EXPIRY)))) by reflexivity.
  split; [exact Hc|]. split.
  - exact (proj1 (proj2 (proj2 (proj1 password_reset_purges_expired _ _ _ _ _ _ Hc)))).
  - apply (proj2 (proj2 password_reset_purges_expired 1000 1000 "token-old" _)).
    intros r [<- | [<- | []]]; simpl; [discriminate | intros _; reflexivity].
Defined.

End PasswordResetProofs.

Module AccountProofs.
Import Bcrypt PasswordReset Account AccountFixture.

Lemma find_exists {A} (f : A -> bool) (l : list A) (x : A) :
  In x l -> f x = true -> exists y, find f l = Some y.
Proof.
  intros Hin Hf. destruct (find f l) as [y|] eqn:E; [eauto|].
  rewrite (find_none f l E x Hin) in Hf. discriminate.
Qed.

(** C2.  In the token branch of [PUT /account/password] (nobody logged in
    with the caller's session, proof type [token], a proof and a new
    password), the account whose password is changed is the one found by the
    request's [email]: for any unexpired row with the given token, whoever
    the row's [user_id] names, once the new password passes the strength
    check and the confirmation mail goes out, the request succeeds with
    [204], every row of that account gets the new hash, and no row with the
    token is left.  The token's [user_id] is never compared with the
    account. *)
Theorem put_token_reset_ignores_token_owner (env : Env) (st : Store) (sid : string)
    (data : AccountPasswordPutData) (tokstr tok pw : string) (t : User)
    (r : PasswordResetRequest)
    (Hanon : forall e, find (fun e => String.eqb (fst e) sid) (sessions st) = Some e -> snd e = None)
    (Htype : put_proof_type data = ProofToken)
    (Hproof : put_proof data = Some tokstr)
    (Htok : uuid_from_str env tokstr = Some tok)
    (Hpw : put_password data = Some pw)
    (Htarget : find (fun u => String.eqb (email u) (put_email data)) (users (db st)) = Some t)
    (Hrow : In r (password_reset (db st)))
    (Hrow_tok : request_id r = tok)
    (Hrow_valid : (now env <= expiration r)%Z)
    (Hstrength : verify_password_strength env pw [email t; display t; "Tusk"] = Ok tt)
    (Hmail : forall u, user_id u = user_id t ->
             exists to, mailbox env u = Some to /\ send_email env to "Password change" = true) :
  exists st',
    put env st sid data = (st', Ok (finish 204)) /\
    (exists u, In u (users (db st')) /\ user_id u = user_id t) /\
    (forall u, In u (users (db st')) -> user_id u = user_id t ->
               password u = fst (hash pw DEFAULT_COST)) /\
    (forall x, In x (password_reset (db st')) -> request_id x <> tok).
Proof.
  destruct st as [[us tb] ss]; simpl in *.
  destruct data as [em pwo pro pt]; simpl in *; subst pt pro pwo.
  (* the reset row found by the token *)
  destruct (find_exists (fun x => (now env <=? expiration x)%Z && String.eqb (request_id x) tok)
              (update_table (now env) tb) r) as [r' Hr'].
  { apply PasswordResetProofs.update_table_spec. auto. }
  { rewrite Hrow_tok, String.eqb_refl, andb_true_r. apply Z.leb_le. exact Hrow_valid. }
  destruct (find_some _ _ Hr') as [_ Hr'_tok].
  apply andb_prop in Hr'_tok as [_ Hr'_tok]. apply String.eqb_eq in Hr'_tok.
  destruct (find_some _ _ Htarget) as [Ht_in _].
  destruct (find_exists (fun u => String.eqb (user_id u) (user_id t)) us t Ht_in
              (String.eqb_refl _)) as [u0 Hu0].
  destruct (find_some _ _ Hu0) as [_ Hu0_id]. apply String.eqb_eq in Hu0_id.
  set (u0' := mkUser (user_id u0) (email u0) (display u0) (fst (hash pw DEFAULT_COST))).
  destruct (Hmail u0' Hu0_id) as [to [Hto Hsend]].
  assert (Hinit : initiator_of ss sid = ret None).
  { unfold initiator_of.
    destruct (find _ ss) as [[k [uid|]]|] eqn:Es; [|reflexivity|reflexivity].
    specialize (Hanon _ eq_refl). discriminate. }
  eexists. split.
  - unfold put, put_body. simpl sessions. simpl db. rewrite Hinit.
    unfold bind at 1, ret at 1. cbn beta iota.
    unfold bind at 1, from_email. cbn [users put_email put_proof put_proof_type put_password]. rewrite Htarget. cbn beta iota.
    rewrite Htok.
    unfold bind at 1, request_from_token, from_token. cbn [password_reset].
    rewrite Hr'. cbn beta iota.
    unfold bind at 1, lift at 1. rewrite Hstrength. cbn beta iota.
    unfold bind at 1, update_password. cbn [users]. rewrite Hu0. cbn beta iota zeta.
    unfold bind at 1, request_delete. cbn beta iota.
    unfold bind at 1, notify. fold u0'. rewrite Hto, Hsend. cbn.
    reflexivity.
  - cbn [db users password_reset].
    split; [|split].
    + exists u0'. split; [|exact Hu0_id].
      apply in_map_iff. exists t. split; [|exact Ht_in].
      rewrite String.eqb_refl. reflexivity.
    + intros u Hu Hid. apply in_map_iff in Hu as [x [<- _]].
      destruct (String.eqb (user_id x) (user_id t)) eqn:E; [reflexivity|].
      apply String.eqb_neq in E. exfalso. apply E. exact Hid.
    + intros x Hx. unfold PasswordReset.delete in Hx.
      apply PasswordResetProofs.update_table_spec in Hx as [Hx _].
      apply filter_In in Hx as [_ Hx].
      rewrite Hr'_tok in Hx. intros Heq. rewrite Heq, String.eqb_refl in Hx. discriminate.
Qed.


Lemma put_token_reset_ignores_token_owner_witness :
  user_id alice <> PasswordReset.user_id (mkRequest "token-bob" "id-bob" 5000%Z) /\
  exists st',
    put env0 store0 "sid-anon"
        (mkPutData "alice@example.com" (Some "correct horse battery staple")
                   (Some "token-bob") ProofToken) = (st', Ok (finish 204)) /\
    (exists u, In u (users (db st')) /\ user_id u = user_id alice) /\
    (forall u, In u (users (db st')) -> user_id u = user_id alice ->
               password u = fst (hash "correct horse battery staple" DEFAULT_COST)) /\
    (forall x, In x (password_reset (db st')) -> request_id x <> "token-bob").
Proof.
  split; [discriminate|].
  apply (put_token_reset_ignores_token_owner env0 store0 "sid-anon"
           (mkPutData "alice@example.com" (Some "correct horse battery staple")
                      (Some "token-bob") ProofToken)
           "token-bob" "token-bob" "correct horse battery staple" alice
           (mkRequest "token-bob" "id-bob" 5000%Z)).
  - intros e H. simpl in H. injection H as <-. reflexivity.
  - reflexivity.
  - reflexivity.
  - reflexivity.
  - reflexivity.
  - reflexivity.
  - simpl. left. reflexivity.
  - reflexivity.
  - simpl. lia.
  - reflexivity.
  - intros u _. exists (email u). split; reflexivity.
Defined.

(** C9.  Whenever [PUT /account/password] succeeds, whatever its response
    (a [202 Accepted] recovery request that changes no password included),
    the caller's session is logged out, and it is the only session removed:
    every other session, of the target account or not, stays. *)
Theorem put_logs_out_only_caller (env : Env) (st st' : Store) (sid : string)
    (data : AccountPasswordPutData) (resp : HttpResponse)
    (H : put env st sid data = (st', Ok resp)) :
  sessions st' = log_out (sessions st) sid /\
  (forall k v, In (k, v) (sessions st') <-> In (k, v) (sessions st) /\ k <> sid).
Proof.
  unfold put in H.
  destruct (put_body env (sessions st) sid data (db st)) as [[resp' d']|e];
    [|discriminate].
  injection H as <- _. simpl. split; [reflexivity|].
  intros k v. unfold log_out. rewrite filter_In. simpl.
  rewrite negb_true_iff, String.eqb_neq. tauto.
Qed.

Lemma put_logs_out_only_caller_witness :
  let req := mkPutData "alice@example.com" None None ProofNone in
  snd (put env0 store0 "sid-anon" req) = Ok (finish 202) /\
  sessions (fst (put env0 store0 "sid-anon" req))
  = [("sid-alice", Some "id-alice"); ("sid-bob", Some "id-bob")].
Proof.
  split; [reflexivity|].
  rewrite (proj1 (put_logs_out_only_caller env0 store0
                    (fst (put env0 store0 "sid-anon" (mkPutData "alice@example.com" None None ProofNone)))
                    "sid-anon" (mkPutData "alice@example.com" None None ProofNone)
                    (finish 202) eq_refl)).
  reflexivity.
Defined.

End AccountProofs.

(** ** Facts about the filesystem model *)
Module FsFacts.
Import Fs Storage.

Lemma str_app_nil (s : string) : (s ++ "")%string = s.
Proof. induction s as [|c s IH]; simpl; [reflexivity|now rewrite IH]. Qed.

Lemma str_app_assoc (a b c : string) : ((a ++ b) ++ c)%string = (a ++ (b ++ c))%string.
Proof. induction a as [|x a IH]; simpl; [reflexivity|now rewrite IH]. Qed.

Lemma path_eqb_eq (p q : PathBuf) : path_eqb p q = true <-> p = q.
Proof.
  revert q; induction p as [|a p IH]; intros [|b q]; simpl; split; intro H;
    try reflexivity; try discriminate.
  - apply andb_prop in H as [H1 H2]. apply String.eqb_eq in H1. apply IH in H2. now subst.
  - injection H as -> ->. rewrite String.eqb_refl. simpl. now apply IH.
Qed.

Lemma path_eqb_refl (p : PathBuf) : path_eqb p p = true.
Proof. now apply path_eqb_eq. Qed.

Lemma path_starts_with_app (b r : PathBuf) : path_starts_with (b ++ r) b = true.
Proof.
  induction b as [|x b IH]; simpl; [now destruct r|]. now rewrite String.eqb_refl, IH.
Qed.

Lemma path_starts_with_refl (p : PathBuf) : path_starts_with p p = true.
Proof. rewrite <- (app_nil_r p) at 1. apply path_starts_with_app. Qed.

Lemma path_starts_with_inv (p b : PathBuf) :
  path_starts_with p b = true -> exists r, p = b ++ r.
Proof.
  revert p; induction b as [|x b IH]; intros p H.
  - now exists p.
  - destruct p as [|a p]; [discriminate|]. simpl in H.
    apply andb_prop in H as [H1 H2]. apply String.eqb_eq in H1. subst.
    destruct (IH p H2) as [r ->]. now exists r.
Qed.

Lemma find_filter_same {A : Type} (f g : A -> bool) (l : list A) :
  (forall x, f x = true -> g x = true) -> find f (filter g l) = find f l.
Proof.
  intro Hfg. induction l as [|x l IH]; simpl; [reflexivity|].
  destruct (f x) eqn:Hf.
  - rewrite (Hfg x Hf). simpl. now rewrite Hf.
  - destruct (g x); simpl; [rewrite Hf|]; exact IH.
Qed.

Lemma find_none_forall {A : Type} (f : A -> bool) (l : list A) :
  (forall x, In x l -> f x = false) -> find f l = None.
Proof.
  induction l as [|x l IH]; intro H; simpl; [reflexivity|].
  rewrite (H x (or_introl eq_refl)). apply IH. intros y Hy. apply H. now right.
Qed.

Lemma find_app {A : Type} (f : A -> bool) (l1 l2 : list A) :
  find f (l1 ++ l2) = match find f l1 with Some x => Some x | None => find f l2 end.
Proof.
  induction l1 as [|x l1 IH]; simpl; [reflexivity|]. destruct (f x); [reflexivity|exact IH].
Qed.

Lemma lookup_none (f : fs) (p : PathBuf) :
  (forall e, In e (entries f) -> fst e <> p) -> lookup f p = None.
Proof.
  intro H. unfold lookup. rewrite find_none_forall; [reflexivity|].
  intros e He. destruct (path_eqb (fst e) p) eqn:E; [|reflexivity].
  apply path_eqb_eq in E. exfalso. exact (H e He E).
Qed.

Lemma split_slash_aux_nosep (s cur : string) :
  contains_separator s = false -> split_slash_aux s cur = [(cur ++ s)%string].
Proof.
  revert cur; induction s as [|c s IH]; intros cur H; simpl in *.
  - now rewrite str_app_nil.
  - apply orb_false_iff in H as [H1 H2]. apply orb_false_iff in H1 as [H1 _].
    rewrite H1, IH by exact H2. now rewrite str_app_assoc.
Qed.

Lemma push_nosep (p : PathBuf) (name : string) :
  contains_separator name = false -> push p name = p ++ [name].
Proof.
  intro H. unfold push, starts_with, split_slash.
  rewrite split_slash_aux_nosep by exact H.
  replace (String.prefix "/" name) with false; [reflexivity|].
  destruct name as [|c s]; [reflexivity|].
  simpl in H. apply orb_false_iff in H as [H _]. apply orb_false_iff in H as [H _].
  cbn [String.prefix]. destruct (ascii_dec "/" c) as [E|E]; [|reflexivity].
  subst. discriminate.
Qed.

Lemma walk_app (f : fs) (c : PathBuf) (a b : list string) :
  walk f c (a ++ b) = match walk f c a with Some c' => walk f c' b | None => None end.
Proof.
  revert c; induction a as [|s a IH]; intro c; simpl; [reflexivity|].
  destruct (negb (is_dir f c)); [reflexivity|].
  destruct (String.eqb s "" || String.eqb s "."); [apply IH|].
  destruct (String.eqb s ".."); [apply IH|].
  destruct (lookup f (c ++ [s])); [apply IH|reflexivity].
Qed.

Lemma walk_regular (f : fs) (cur : PathBuf) (s : string) :
  is_dot_name s = false ->
  walk f cur [s] = if is_dir f cur then
                     match lookup f (cur ++ [s]) with Some _ => Some (cur ++ [s]) | None => None end
                   else None.
Proof.
  unfold is_dot_name. intro H.
  apply orb_false_iff in H as [H H3]. apply orb_false_iff in H as [H1 H2].
  simpl. rewrite H1, H2, H3. simpl.
  destruct (is_dir f cur); simpl; [|reflexivity].
  destruct (lookup f (cur ++ [s])); reflexivity.
Qed.

Lemma nil_or_snoc {A : Type} (l : list A) : l = [] \/ exists a x, l = a ++ [x].
Proof.
  destruct l as [|y l]; [now left|right].
  destruct (exists_last (l := y :: l) ltac:(discriminate)) as [a [x E]]. now exists a, x.
Qed.

(** The paths [walk] reaches from a resolved path are resolved paths of
    regular components. *)
Lemma walk_resolved (f : fs) (segs : list string) (cur c : PathBuf) :
  walk f [] cur = Some cur -> Forall (fun s => is_dot_name s = false) cur ->
  walk f cur segs = Some c ->
  walk f [] c = Some c /\ Forall (fun s => is_dot_name s = false) c.
Proof.
  revert cur; induction segs as [|s segs IH]; intros cur Hw Hf H; simpl in H.
  - injection H as <-. now split.
  - destruct (negb (is_dir f cur)) eqn:Hd; [discriminate|].
    apply negb_false_iff in Hd.
    destruct (String.eqb s "" || String.eqb s ".") eqn:Hdot; [exact (IH cur Hw Hf H)|].
    destruct (String.eqb s "..") eqn:Hdd.
    + apply (IH (parent cur)); [| |exact H].
      * unfold parent. destruct (nil_or_snoc cur) as [->|[a [x ->]]]; [reflexivity|].
        rewrite removelast_last.
        apply Forall_app in Hf as [_ Hx]. inversion Hx as [|? ? Hreg _]; subst.
        rewrite walk_app in Hw. destruct (walk f [] a) as [a'|] eqn:Ha; [|discriminate].
        rewrite walk_regular in Hw by exact Hreg.
        destruct (is_dir f a'); [|discriminate].
        destruct (lookup f (a' ++ [x])); [|discriminate].
        injection Hw as Hw. apply app_inj_tail in Hw as [-> _]. reflexivity.
      * unfold parent. destruct (nil_or_snoc cur) as [->|[a [x ->]]]; [constructor|].
        rewrite removelast_last. now apply Forall_app in Hf as [Ha _].
    + destruct (lookup f (cur ++ [s])) eqn:Hl; [|discriminate].
      assert (Hreg : is_dot_name s = false).
      { unfold is_dot_name. apply orb_false_iff in Hdot as [H1 H2].
        now rewrite H1, H2, Hdd. }
      apply (IH (cur ++ [s])); [| |exact H].
      * rewrite walk_app, Hw, walk_regular by exact Hreg. now rewrite Hd, Hl.
      * apply Forall_app. split; [exact Hf|now constructor].
Qed.

Lemma canonicalize_resolved (f : fs) (p c : PathBuf) :
  canonicalize f p = Some c -> canonicalize f c = Some c.
Proof.
  unfold canonicalize. intro H.
  destruct (walk f [] p) as [c'|] eqn:Hw; [|discriminate].
  destruct (lookup f c') eqn:Hl; [|discriminate]. injection H as <-.
  destruct (walk_resolved f p [] c' eq_refl (Forall_nil _) Hw) as [Hc _].
  now rewrite Hc, Hl.
Qed.

Lemma canonicalize_walk (f : fs) (p : PathBuf) :
  canonicalize f p = Some p -> walk f [] p = Some p.
Proof.
  unfold canonicalize. destruct (walk f [] p) as [c|] eqn:Hw; [|discriminate].
  destruct (lookup f c); [|discriminate]. now intros [= ->].
Qed.

(** What [from_request] hands out: the canonical root, and a canonical path
    [depth + 1] components below it. *)
Lemma from_request_ok (f : fs) (ud : PathBuf) (s : option string) (q : string) (pi : PathInfo) :
  from_request f ud s q = Ok pi ->
  canonicalize f ud = Some (root pi) /\ canonicalize f (path pi) = Some (path pi) /\
  exists rest, path pi = root pi ++ rest /\ length rest = S (depth pi).
Proof.
  unfold from_request. intro H.
  destruct s as [initiator|]; [|discriminate].
  destruct (canonicalize f ud) as [root0|] eqn:Hr; [|discriminate].
  destruct (_ && _); [discriminate|].
  destruct (canonicalize f (push root0 q)) as [p|] eqn:Hp; [|discriminate].
  destruct (path_starts_with p root0) eqn:Hs; [|discriminate].
  simpl in H. destruct (Nat.eqb (length p - length root0) 0) eqn:Hz; [discriminate|].
  injection H as <-. simpl. split; [reflexivity|]. split.
  - exact (canonicalize_resolved f _ _ Hp).
  - destruct (path_starts_with_inv _ _ Hs) as [rest ->]. exists rest. split; [reflexivity|].
    apply Nat.eqb_neq in Hz. rewrite length_app in *. lia.
Qed.

Lemma lookup_cons_other (p q : PathBuf) (k : kind) (rest : list (PathBuf * kind)) (ro : list PathBuf) :
  q <> p -> lookup (mkFs ((p, k) :: rest) ro) q = lookup (mkFs rest ro) q.
Proof.
  intro Hne. unfold lookup. simpl.
  destruct (path_eqb p q) eqn:E; [apply path_eqb_eq in E; congruence|reflexivity].
Qed.

Lemma lookup_cons_same (p : PathBuf) (k : kind) (rest : list (PathBuf * kind)) (ro : list PathBuf) :
  lookup (mkFs ((p, k) :: rest) ro) p = Some k.
Proof. unfold lookup. simpl. now rewrite path_eqb_refl. Qed.

(** A successful [PathInfo::create_dir] below a canonical path. *)
Lemma create_dir_ok (self : PathInfo) (f f' : fs) (name : string) (child : PathInfo) :
  canonicalize f (path self) = Some (path self) ->
  Storage.create_dir self f name = (f', Ok child) ->
  child = mkPathInfo (S (depth self)) (root self) (path self ++ [name]) /\
  is_dot_name name = false /\
  lookup f' (path self ++ [name]) = Some Dir /\
  (forall q, q <> path self ++ [name] -> lookup f' q = lookup f q).
Proof.
  intros Hc H. apply canonicalize_walk in Hc.
  unfold Storage.create_dir in H.
  destruct (contains_separator name || String.eqb name "." || String.eqb name "...") eqn:Hn;
    [discriminate|].
  apply orb_false_iff in Hn as [Hn _]. apply orb_false_iff in Hn as [Hn _].
  rewrite push_nosep in H by exact Hn.
  destruct (Fs.create_dir f (path self ++ [name])) as [f1 r] eqn:Hcd.
  destruct r as [[]|e]; [|destruct e; discriminate].
  injection H as <- <-.
  unfold Fs.create_dir, resolve_last in Hcd.
  rewrite removelast_last, Hc, last_last in Hcd.
  destruct (is_dir f (path self)); [|discriminate].
  destruct (is_dot_name name) eqn:Hdot; [discriminate|].
  destruct (lookup f (path self ++ [name])) eqn:Hl; [discriminate|].
  destruct (is_readonly f (path self)); [discriminate|].
  injection Hcd as <-.
  split; [reflexivity|]. split; [reflexivity|]. split; [apply lookup_cons_same|].
  intros q Hq. rewrite lookup_cons_other by exact Hq. now destruct f.
Qed.

(** A successful [PathInfo::create_file] below a canonical path. *)
Lemma create_file_ok (self : PathInfo) (f f' : fs) (payload : TempFile) (child : PathInfo) :
  canonicalize f (path self) = Some (path self) ->
  Storage.create_file self f payload = (f', Ok child) ->
  exists name, file_name payload = Some name /\
  child = mkPathInfo (S (depth self)) (root self) (path self ++ [name]) /\
  is_dot_name name = false /\
  lookup f' (path self ++ [name]) = Some (File (file payload)) /\
  (forall q, q <> path self ++ [name] -> lookup f' q = lookup f q).
Proof.
  intros Hc H. apply canonicalize_walk in Hc.
  unfold Storage.create_file in H.
  destruct (file_name payload) as [name|] eqn:Hname; [|discriminate].
  destruct (contains_separator name || String.eqb name "." || String.eqb name "...") eqn:Hn;
    [discriminate|].
  apply orb_false_iff in Hn as [Hn _]. apply orb_false_iff in Hn as [Hn _].
  rewrite push_nosep in H by exact Hn.
  destruct (persist f (file payload) (path self ++ [name])) as [f1 r] eqn:Hp.
  destruct r as [[]|e]; [|discriminate].
  injection H as <- <-. exists name. split; [reflexivity|].
  unfold persist, resolve_last in Hp.
  rewrite removelast_last, Hc, last_last in Hp.
  destruct (is_dir f (path self)); [|discriminate].
  destruct (is_dot_name name) eqn:Hdot; [discriminate|].
  destruct (lookup f (path self ++ [name])) as [[|c]|] eqn:Hl; [discriminate| |];
    (destruct (is_readonly f (path self)); [discriminate|]); injection Hp as <-;
    (split; [reflexivity|]); (split; [reflexivity|]); (split; [apply lookup_cons_same|]);
    intros q Hq; rewrite lookup_cons_other by exact Hq; unfold lookup; simpl;
    rewrite find_filter_same; try reflexivity;
    intros e He; apply path_eqb_eq in He; rewrite He;
    destruct (path_eqb q (path self ++ [name])) eqn:E; try reflexivity;
    apply path_eqb_eq in E; contradiction.
Qed.

(** A successful [PathInfo::delete]. *)
Lemma delete_ok (self : PathInfo) (f f' : fs) :
  Storage.delete self f = (f', Ok tt) ->
  lookup f' (path self) = None /\
  (is_dir f (path self) = true -> forall q, path_starts_with q (path self) = true -> lookup f' q = None) /\
  (forall q, path_starts_with q (path self) = false -> lookup f' q = lookup f q).
Proof.
  unfold Storage.delete, is_directory. intro H.
  destruct (Nat.eqb (depth self) 0); [discriminate|].
  destruct (is_dir f (path self)) eqn:Hdir.
  - destruct (remove_dir_all f (path self)) as [f1 r] eqn:Hr.
    destruct r as [[]|e]; [|discriminate]. injection H as <-.
    unfold remove_dir_all in Hr. destruct (lookup f (path self)); [|discriminate].
    destruct (_ || _); [discriminate|]. injection Hr as <-.
    assert (Hgone : forall q, path_starts_with q (path self) = true ->
                    lookup (mkFs (filter (fun e => negb (path_starts_with (fst e) (path self))) (entries f))
                                 (readonly f)) q = None).
    { intros q Hq. apply lookup_none. simpl. intros e He Heq.
      apply filter_In in He as [_ He]. rewrite Heq, Hq in He. discriminate. }
    split; [apply Hgone, path_starts_with_refl|]. split; [intros _; exact Hgone|].
    intros q Hq. unfold lookup. simpl. rewrite find_filter_same; [reflexivity|].
    intros e He. apply path_eqb_eq in He. now rewrite He, Hq.
  - destruct (remove_file f (path self)) as [f1 r] eqn:Hr.
    destruct r as [[]|e]; [|discriminate]. injection H as <-.
    unfold remove_file in Hr. destruct (lookup f (path self)) as [[|c]|]; try discriminate.
    destruct (is_readonly f (parent (path self))); [discriminate|]. injection Hr as <-.
    split; [|split; [discriminate|]].
    + apply lookup_none. simpl. intros e He Heq.
      apply filter_In in He as [_ He]. rewrite Heq, path_eqb_refl in He. discriminate.
    + intros q Hq. unfold lookup. simpl. rewrite find_filter_same; [reflexivity|].
      intros e He. apply path_eqb_eq in He. rewrite He.
      destruct (path_eqb q (path self)) eqn:E; [|reflexivity].
      apply path_eqb_eq in E. rewrite E, path_starts_with_refl in Hq. discriminate.
Qed.

Lemma skipn_length_app {A : Type} (l r : list A) : skipn (length l) (l ++ r) = r.
Proof. induction l as [|x l IH]; simpl; [reflexivity|exact IH]. Qed.

Lemma join_slash_snoc (rest : list string) (n : string) :
  rest <> [] -> join_slash (rest ++ [n]) = (join_slash rest ++ "/" ++ n)%string.
Proof.
  induction rest as [|a rest IH]; intro Hne; [contradiction|].
  destruct rest as [|b rest']; [reflexivity|].
  change ((a :: b :: rest') ++ [n]) with (a :: ((b :: rest') ++ [n])).
  assert (Hcons : exists y ys, (b :: rest') ++ [n] = y :: ys) by (eexists; eexists; reflexivity).
  destruct Hcons as [y [ys Hy]].
  transitivity ((a ++ "/" ++ join_slash ((b :: rest') ++ [n]))%string).
  - rewrite Hy. reflexivity.
  - rewrite IH by discriminate. change (join_slash (a :: b :: rest'))
      with (a ++ "/" ++ join_slash (b :: rest'))%string.
    now rewrite !str_app_assoc.
Qed.

Lemma last_of_rev (p : PathBuf) (n : string) (r : list string) :
  rev p = n :: r -> last p "" = n.
Proof.
  intro H. rewrite <- (rev_involutive p), H. simpl. apply last_last.
Qed.

Lemma path_file_name_snoc (p : PathBuf) (n : string) :
  is_dot_name n = false -> StorageApi.path_file_name (p ++ [n]) = Some n.
Proof.
  unfold StorageApi.path_file_name, is_dot_name. intro H.
  apply orb_false_iff in H as [_ H].
  rewrite rev_app_distr. simpl. now rewrite H.
Qed.

End FsFacts.

Module StorageApiProofs.
Import Fs Storage StorageApi Fixture StorageApiFixture FsFacts.

Lemma as_i64_small (x : Z) : (- 2 ^ 63 <= x < 2 ^ 63)%Z -> as_i64 x = x.
Proof.
  intro H. unfold as_i64.
  destruct (Z.leb_spec 0 x).
  - rewrite Z.mod_small by lia. destruct (Z.leb_spec (2 ^ 63) x); lia.
  - replace (x mod 2 ^ 64)%Z with (x + 2 ^ 64)%Z
      by (apply Z.mod_unique with (-1)%Z; lia).
    destruct (Z.leb_spec (2 ^ 63) (x + 2 ^ 64)); lia.
Qed.

(** [system_type_from_epoch_delta] and the conversion back to seconds of
    [StoragePathRead::from_path] are inverse on the [i64] range (its minimum
    apart). *)
Theorem into_lossy_secs_epoch_delta (delta : Z) :
  (- 2 ^ 63 < delta < 2 ^ 63)%Z ->
  into_lossy_secs (Some (system_type_from_epoch_delta delta)) = delta.
Proof.
  intro H. unfold system_type_from_epoch_delta, into_lossy_secs, NANOS, as_u64.
  destruct (Z.ltb_spec 0 delta).
  - rewrite Z.mod_small by lia.
    destruct (Z.leb_spec 0 (delta * 1000000000)); [|lia].
    rewrite Z.div_mul by lia. apply as_i64_small. lia.
  - rewrite (as_i64_small (- delta)) by lia. rewrite Z.mod_small by lia.
    destruct (Z.leb_spec 0 (- (- delta * 1000000000))).
    + assert (delta = 0%Z) by lia. subst. reflexivity.
    + replace (- - (- delta * 1000000000))%Z with (- delta * 1000000000)%Z by lia.
      rewrite Z.div_mul by lia. rewrite (as_i64_small (- delta)) by lia.
      rewrite Z.opp_involutive. apply as_i64_small. lia.
Qed.

Lemma into_lossy_secs_epoch_delta_witness :
  into_lossy_secs (Some (system_type_from_epoch_delta (-5))) = (-5)%Z.
Proof. apply into_lossy_secs_epoch_delta. lia. Defined.

(** A time before the epoch loses its sub-second part towards the epoch:
    the conversion is the quotient rounded towards zero. *)
Theorem into_lossy_secs_truncates (t : Z) :
  (- 2 ^ 63 * NANOS < t < 2 ^ 63 * NANOS)%Z ->
  into_lossy_secs (Some t) = Z.quot t NANOS /\ into_lossy_secs None = 0%Z.
Proof.
  unfold NANOS. intro H. split; [|reflexivity]. unfold into_lossy_secs, NANOS.
  destruct (Z.leb_spec 0 t).
  - rewrite Z.quot_div_nonneg by lia. apply as_i64_small. split.
    + apply Z.le_trans with 0%Z; [lia|]. apply Z.div_pos; lia.
    + apply Z.div_lt_upper_bound; lia.
  - assert (Hq : (0 <= - t / 1000000000 < 2 ^ 63)%Z).
    { split; [apply Z.div_pos; lia|apply Z.div_lt_upper_bound; lia]. }
    rewrite (as_i64_small (- t / 1000000000)) by lia.
    rewrite as_i64_small by lia.
    replace t with (- (- t))%Z at 2 by lia.
    rewrite Z.quot_opp_l by lia. rewrite Z.quot_div_nonneg by lia. reflexivity.
Qed.

Lemma into_lossy_secs_truncates_witness :
  into_lossy_secs (Some (-1500000000)%Z) = (-1)%Z /\ into_lossy_secs None = 0%Z.
Proof.
  pose proof (into_lossy_secs_truncates (-1500000000)%Z
                ltac:(unfold NANOS; lia)) as H.
  exact H.
Defined.

Lemma directory_try_from_ok (data : CreatePathData) (name : string) :
  CreateDirectoryData_try_from data = Ok name -> CreatePathData_is_directory data = true.
Proof.
  unfold CreateDirectoryData_try_from, CreatePathData_is_directory.
  destruct (payload data); [discriminate|]. destruct (metadata data) as [m|]; [|discriminate].
  destruct (CreatePathKind_eqb (attr_kind m) CreatePathKind_Directory); [reflexivity|discriminate].
Qed.

Lemma file_try_from_ok (data : CreatePathData) (p : TempFile) :
  CreateFileData_try_from data = Ok p ->
  payload data = Some p /\ CreatePathData_is_directory data = false /\ CreatePathData_is_file data = true.
Proof.
  unfold CreateFileData_try_from, CreatePathData_is_directory, CreatePathData_is_file.
  destruct (payload data) as [p'|]; [|discriminate]. destruct (metadata data) as [m|]; [|discriminate].
  destruct (CreatePathKind_eqb (attr_kind m) CreatePathKind_File); [|discriminate].
  intros [= ->]. now repeat split.
Qed.

(** [StorageResource::post] dispatches a form to exactly one of the two
    creations, and the conversion it then applies cannot fail; a form that is
    neither is answered by a plain 400 response, the filesystem untouched. *)
Theorem create_path_data_dispatch (data : CreatePathData) :
  (CreatePathData_is_directory data = true ->
     CreatePathData_is_file data = false /\
     exists m, metadata data = Some m /\ CreateDirectoryData_try_from data = Ok (attr_name m)) /\
  (CreatePathData_is_file data = true ->
     CreatePathData_is_directory data = false /\
     exists p, payload data = Some p /\ CreateFileData_try_from data = Ok p) /\
  (forall self f times,
     CreatePathData_is_directory data = false -> CreatePathData_is_file data = false ->
     StorageResource_post self f times data = (f, Ok (finish 400, None))).
Proof.
  destruct data as [[[k n c a m]|] [p|]];
    unfold CreatePathData_is_directory, CreatePathData_is_file,
      CreateDirectoryData_try_from, CreateFileData_try_from, StorageResource_post; simpl;
    try (destruct k); simpl;
    repeat split; intros; try discriminate; eauto;
    try (rewrite H, H0; reflexivity).
Qed.

Lemma create_path_data_dispatch_witness :
  (CreatePathData_is_file dir_form = false /\
   exists m, metadata dir_form = Some m /\ CreateDirectoryData_try_from dir_form = Ok (attr_name m)) /\
  (CreatePathData_is_directory file_form = false /\
   exists p, payload file_form = Some p /\ CreateFileData_try_from file_form = Ok p) /\
  StorageResource_post user_home fs0 times0 (mkCreatePathData None None) = (fs0, Ok (finish 400, None)).
Proof.
  split; [apply (proj1 (create_path_data_dispatch dir_form)); reflexivity|].
  split; [apply (proj1 (proj2 (create_path_data_dispatch file_form))); reflexivity|].
  apply (proj2 (proj2 (create_path_data_dispatch (mkCreatePathData None None))));
    reflexivity.
Defined.

(** The JSON object of a [StoragePathRead] announces exactly as many entries
    as it writes, with distinct keys, and carries a [size] exactly for a file
    and a [children] count exactly for a directory. *)
Theorem serialize_length_matches (r : StoragePathRead) :
  fst (serialize r) = length (snd (serialize r)) /\
  NoDup (map fst (snd (serialize r))) /\
  (In "size" (map fst (snd (serialize r))) <-> exists s, read_kind r = StoragePathReadKind_File s) /\
  (In "children" (map fst (snd (serialize r))) <->
     exists c, read_kind r = StoragePathReadKind_Directory c).
Proof.
  destruct r as [fn k c a m]. destruct k as [s|ch|]; cbn;
    (split; [reflexivity|]);
    (split; [repeat constructor; cbn; intuition discriminate|]);
    split; (split; [intro H; intuition (try discriminate; eauto)|
                    intros [x Hx]; try discriminate; intuition]).
Qed.

Lemma collect_map_ok {A B E : Type} (g : A -> result B E) (xs : list A) (l : list B) :
  collect (map g xs) = Ok l -> Forall2 (fun x y => g x = Ok y) xs l.
Proof.
  revert l; induction xs as [|x xs IH]; intros l H; simpl in H.
  - injection H as <-. constructor.
  - destruct (g x) as [y|e] eqn:Hg; [|discriminate].
    destruct (collect (map g xs)) as [l'|e] eqn:Hc; [|discriminate].
    injection H as <-. constructor; [exact Hg|]. now apply IH.
Qed.

Lemma from_path_filename (f : fs) (times : Times) (p : PathBuf) (r : StoragePathRead) :
  from_path f times p = Ok r -> filename r = last p "".
Proof.
  unfold from_path, path_file_name. intro H.
  destruct (lookup f p); [|discriminate].
  destruct (rev p) as [|n rp] eqn:Hr; [discriminate|].
  destruct (String.eqb n ".."); [discriminate|].
  destruct (times p) as [[c a] m]. injection H as <-. simpl.
  symmetry. exact (last_of_rev p n rp Hr).
Qed.

(** [PathInfo::list_children]: a path that is not a directory gives 409
    Conflict; a successful listing has one entry per entry directly below the
    directory, named after it. *)
Theorem list_children_spec (self : PathInfo) (f : fs) (times : Times) :
  (is_dir f (path self) = false -> list_children self f times = Err conflict) /\
  (forall l, list_children self f times = Ok l ->
     map filename l = map (fun q => last q "") (read_dir f (path self))).
Proof.
  unfold list_children. split.
  - intro H. now rewrite H.
  - intros l H. destruct (is_dir f (path self)); [|discriminate]. simpl in H.
    destruct (collect (map (from_path f times) (read_dir f (path self)))) as [l'|e] eqn:Hc;
      [|discriminate].
    injection H as <-. apply collect_map_ok in Hc.
    induction Hc as [|x y xs ys Hxy _ IH]; [reflexivity|].
    simpl. rewrite IH. f_equal. exact (from_path_filename f times x y Hxy).
Qed.

Lemma list_children_spec_witness :
  list_children (mkPathInfo 1 storage_root (storage_root ++ ["user"; "user.txt"])) fs0 times0
    = Err conflict /\
  map filename [mkStoragePathRead "user.txt" (StoragePathReadKind_File 9) 0 0 0]
    = map (fun q => last q "") (read_dir fs0 (path user_home)).
Proof.
  split.
  - apply (proj1 (list_children_spec _ fs0 times0)). reflexivity.
  - apply (proj2 (list_children_spec user_home fs0 times0)). reflexivity.
Defined.

(** What an accepted storage request resolves to: the path is canonical
    (canonicalising it again gives it back), and it is the canonical storage
    root followed by [depth + 1] components, which [request_path] joins with
    [/]. *)
Theorem from_request_path_below_root (f : fs) (ud : PathBuf) (s : option string) (q : string)
    (pi : PathInfo) :
  from_request f ud s q = Ok pi ->
  canonicalize f ud = Some (root pi) /\ canonicalize f (path pi) = Some (path pi) /\
  exists rest, path pi = root pi ++ rest /\ length rest = S (depth pi) /\
               request_path pi = join_slash rest.
Proof.
  intro H. destruct (from_request_ok f ud s q pi H) as [H1 [H2 [rest [H3 H4]]]].
  split; [exact H1|]. split; [exact H2|]. exists rest. split; [exact H3|]. split; [exact H4|].
  unfold request_path. rewrite H3. now rewrite skipn_length_app.
Qed.

Lemma from_request_path_below_root_witness :
  canonicalize fs0 (storage_root ++ ["user"; "user.txt"]) = Some (storage_root ++ ["user"; "user.txt"]) /\
  exists rest, storage_root ++ ["user"; "user.txt"] = storage_root ++ rest /\ length rest = 2 /\
               request_path (mkPathInfo 1 storage_root (storage_root ++ ["user"; "user.txt"]))
                 = join_slash rest.
Proof.
  exact (proj2 (from_request_path_below_root fs0 storage_root (Some "user") "user/user.txt"
                  (mkPathInfo 1 storage_root (storage_root ++ ["user"; "user.txt"])) eq_refl)).
Defined.

(** Creating a directory below an accepted request path: the child is the
    path extended by the name, one level deeper, it is a directory
    afterwards, and nothing else in the filesystem changes. *)
Theorem create_dir_then_is_directory (f f' : fs) (ud : PathBuf) (s : option string) (q : string)
    (self : PathInfo) (name : string) (child : PathInfo) :
  from_request f ud s q = Ok self ->
  Storage.create_dir self f name = (f', Ok child) ->
  path child = path self ++ [name] /\ depth child = S (depth self) /\
  is_directory child f' = true /\
  (forall p, p <> path child -> lookup f' p = lookup f p).
Proof.
  intros Hr Hc. destruct (from_request_ok f ud s q self Hr) as [_ [Hcan _]].
  destruct (create_dir_ok self f f' name child Hcan Hc) as [-> [_ [Hl Hother]]].
  simpl. split; [reflexivity|]. split; [reflexivity|]. split.
  - unfold is_directory, is_dir. simpl. now rewrite Hl.
  - exact Hother.
Qed.

Lemma create_dir_then_is_directory_witness :
  exists f' child,
    from_request fs0 storage_root (Some "user") "user/" = Ok user_home /\
    Storage.create_dir user_home fs0 "docs" = (f', Ok child) /\
    is_directory child f' = true.
Proof.
  eexists; eexists. split; [reflexivity|]. split; [reflexivity|].
  refine (proj1 (proj2 (proj2 (create_dir_then_is_directory fs0 _ storage_root (Some "user")
                                 "user/" user_home "docs" _ eq_refl eq_refl)))).
Defined.

(** Uploading a file below an accepted request path: the child is the path
    extended by the upload's file name, and afterwards that path holds
    exactly the uploaded contents; nothing else in the filesystem changes. *)
Theorem create_file_then_contents (f f' : fs) (ud : PathBuf) (s : option string) (q : string)
    (self : PathInfo) (payload : TempFile) (child : PathInfo) :
  from_request f ud s q = Ok self ->
  Storage.create_file self f payload = (f', Ok child) ->
  exists name, file_name payload = Some name /\
    path child = path self ++ [name] /\ depth child = S (depth self) /\
    lookup f' (path child) = Some (File (file payload)) /\
    (forall p, p <> path child -> lookup f' p = lookup f p).
Proof.
  intros Hr Hc. destruct (from_request_ok f ud s q self Hr) as [_ [Hcan _]].
  destruct (create_file_ok self f f' payload child Hcan Hc) as [name [Hn [-> [_ [Hl Hother]]]]].
  exists name. simpl. repeat split; assumption.
Qed.

Lemma create_file_then_contents_witness :
  exists f' child name,
    Storage.create_file user_home fs0 (mkTempFile "Hi" (Some "notes.txt")) = (f', Ok child) /\
    file_name (mkTempFile "Hi" (Some "notes.txt")) = Some name /\
    lookup f' (path child) = Some (File "Hi").
Proof.
  destruct (create_file_then_contents fs0 _ storage_root (Some "user") "user/" user_home
              (mkTempFile "Hi" (Some "notes.txt")) _ eq_refl eq_refl)
    as [name [Hn [_ [_ [Hl _]]]]].
  eexists; eexists; exists name. split; [reflexivity|]. split; [exact Hn|exact Hl].
Defined.

(** [DELETE /storage/..]: on success the answer is 200 OK, the path is gone
    (with everything below it, for a directory), and every path outside it is
    as before. *)
Theorem storage_delete_removes_subtree (self : PathInfo) (f f' : fs) (resp : HttpResponse) :
  StorageResource_delete self f = (f', Ok resp) ->
  resp = finish 200 /\ lookup f' (path self) = None /\
  (is_directory self f = true ->
     forall q, path_starts_with q (path self) = true -> lookup f' q = None) /\
  (forall q, path_starts_with q (path self) = false -> lookup f' q = lookup f q).
Proof.
  unfold StorageResource_delete. intro H.
  destruct (Storage.delete self f) as [f1 [[]|e]] eqn:Hd; [|discriminate].
  injection H as <- <-. split; [reflexivity|]. exact (delete_ok self f f1 Hd).
Qed.

Lemma storage_delete_removes_subtree_witness :
  exists f',
    StorageResource_delete (mkPathInfo 1 storage_root (storage_root ++ ["user"; "user.txt"])) fs0
      = (f', Ok (finish 200)) /\
    lookup f' (storage_root ++ ["user"; "user.txt"]) = None.
Proof.
  eexists. split; [reflexivity|].
  exact (proj1 (proj2 (storage_delete_removes_subtree
                         (mkPathInfo 1 storage_root (storage_root ++ ["user"; "user.txt"]))
                         fs0 _ (finish 200) eq_refl))).
Defined.

Lemma request_path_child (self : PathInfo) (rest : list string) (name : string) (d : nat) :
  path self = root self ++ rest -> rest <> [] ->
  request_path (mkPathInfo d (root self) (path self ++ [name]))
    = (request_path self ++ "/" ++ name)%string.
Proof.
  intros Hp Hne. unfold request_path. simpl. rewrite Hp, <- app_assoc, !skipn_length_app.
  now apply join_slash_snoc.
Qed.

(** [POST] of a directory form below an accepted request path: a success is
    201 Created, with [Location] the request path extended by the new name
    (and a final [/]), and a JSON body describing a directory of that name,
    which now exists. *)
Theorem post_directory_location (f f' : fs) (ud : PathBuf) (s : option string) (q : string)
    (self : PathInfo) (times : Times) (data : CreatePathData) (name : string)
    (resp : HttpResponse) (attr : StoragePathRead) :
  from_request f ud s q = Ok self ->
  CreateDirectoryData_try_from data = Ok name ->
  StorageResource_post self f times data = (f', Ok (resp, Some attr)) ->
  resp_status resp = 201 /\
  In ("location", ("/v1/storage/" ++ request_path self ++ "/" ++ name ++ "/")%string)
     (resp_headers resp) /\
  filename attr = name /\ (exists c, read_kind attr = StoragePathReadKind_Directory c) /\
  is_dir f' (path self ++ [name]) = true.
Proof.
  intros Hr Ht H.
  destruct (from_request_ok f ud s q self Hr) as [_ [Hcan [rest [Hp Hlen]]]].
  unfold StorageResource_post in H. rewrite (directory_try_from_ok data name Ht), Ht in H.
  destruct (Storage.create_dir self f name) as [f1 [child|e]] eqn:Hc; [|discriminate].
  destruct (create_dir_ok self f f1 name child Hcan Hc) as [-> [Hdot [Hl _]]].
  unfold info, from_path in H. simpl path in H. rewrite Hl, path_file_name_snoc in H by exact Hdot.
  destruct (times (path self ++ [name])) as [[c a] m].
  injection H as <- <- <-. simpl.
  rewrite (request_path_child self rest name) by (exact Hp || (intros ->; discriminate)).
  split; [reflexivity|]. split.
  - left. rewrite ?str_app_assoc. reflexivity.
  - split; [reflexivity|]. split; [eexists; reflexivity|]. unfold is_dir. now rewrite Hl.
Qed.

Lemma post_directory_location_witness :
  exists f' resp attr,
    StorageResource_post user_home fs0 times0 dir_form = (f', Ok (resp, Some attr)) /\
    In ("location", "/v1/storage/user/docs/") (resp_headers resp).
Proof.
  eexists; eexists; eexists. split; [reflexivity|].
  exact (proj1 (proj2 (post_directory_location fs0 _ storage_root (Some "user") "user/"
                         user_home times0 dir_form "docs" _ _ eq_refl eq_refl eq_refl))).
Defined.

(** [POST] of a file form below an accepted request path: a success is 201
    Created, with [Location] the request path extended by the file name, and
    a JSON body describing a file of that name whose size is the length of
    the upload, which is what the path now holds. *)
Theorem post_file_location (f f' : fs) (ud : PathBuf) (s : option string) (q : string)
    (self : PathInfo) (times : Times) (data : CreatePathData) (p : TempFile) (name : string)
    (resp : HttpResponse) (attr : StoragePathRead) :
  from_request f ud s q = Ok self ->
  CreateFileData_try_from data = Ok p ->
  file_name p = Some name ->
  StorageResource_post self f times data = (f', Ok (resp, Some attr)) ->
  resp_status resp = 201 /\
  In ("location", ("/v1/storage/" ++ request_path self ++ "/" ++ name)%string) (resp_headers resp) /\
  filename attr = name /\ read_kind attr = StoragePathReadKind_File (String.length (file p)) /\
  lookup f' (path self ++ [name]) = Some (File (file p)).
Proof.
  intros Hr Ht Hn H.
  destruct (from_request_ok f ud s q self Hr) as [_ [Hcan [rest [Hp Hlen]]]].
  destruct (file_try_from_ok data p Ht) as [_ [Hd Hf]].
  unfold StorageResource_post in H. rewrite Hd, Hf, Ht in H.
  destruct (Storage.create_file self f p) as [f1 [child|e]] eqn:Hc; [|discriminate].
  destruct (create_file_ok self f f1 p child Hcan Hc) as [name' [Hn' [-> [Hdot [Hl _]]]]].
  rewrite Hn in Hn'. injection Hn' as <-.
  unfold info, from_path in H. simpl path in H. rewrite Hl, path_file_name_snoc in H by exact Hdot.
  destruct (times (path self ++ [name])) as [[c a] m].
  injection H as <- <- <-. simpl.
  rewrite (request_path_child self rest name) by (exact Hp || (intros ->; discriminate)).
  split; [reflexivity|]. split.
  - left. rewrite ?str_app_assoc. reflexivity.
  - split; [reflexivity|]. split; [reflexivity|exact Hl].
Qed.

Lemma post_file_location_witness :
  exists f' resp attr,
    StorageResource_post user_home fs0 times0 file_form = (f', Ok (resp, Some attr)) /\
    In ("location", "/v1/storage/user/notes.txt") (resp_headers resp) /\
    read_kind attr = StoragePathReadKind_File 2.
Proof.
  eexists; eexists; eexists. split; [reflexivity|].
  destruct (post_file_location fs0 _ storage_root (Some "user") "user/" user_home times0
              file_form (mkTempFile "Hi" (Some "notes.txt")) "notes.txt" _ _
              eq_refl eq_refl eq_refl eq_refl) as [_ [Hloc [_ [Hk _]]]].
  split; [exact Hloc|exact Hk].
Defined.

End StorageApiProofs.

Module SessionApiProofs.
Import Bcrypt Session SessionApi.

(** The session lifecycle: a successful login answers 201 Created and
    [GET /session] then reports the username it was made with; a failed login
    leaves the session as it was; after [DELETE /session], [GET /session]
    answers 401 Unauthorized. *)
Theorem session_login_get_logout (db : option (list User)) (s : SessionState)
    (username pw : string) (ev : list event) (s' : SessionState)
    (r : result HttpResponse HttpError) :
  Session.post db s username pw = (ev, s', r) ->
  (forall resp, r = Ok resp ->
     resp_status resp = 201 /\ exists h, SessionApi.get s' = Ok (h, username)) /\
  (forall e, r = Err e -> s' = s) /\
  SessionApi.get (fst (Session.delete s')) = Err unauthorized.
Proof.
  unfold Session.post. intro H.
  split; [|split; [|reflexivity]].
  - intros resp ->. destruct db as [users|]; [|discriminate].
    destruct (with_authentication_failure _ username pw) as [r1 ev1].
    destruct r1 as [u|e]; [|discriminate].
    destruct (verify_password u pw) as [ok ev2]. destruct (negb ok); [discriminate|].
    injection H as _ <- <-. split; [reflexivity|]. eexists. reflexivity.
  - intros e ->. destruct db as [users|]; [|now inversion H].
    destruct (with_authentication_failure _ username pw) as [r1 ev1].
    destruct r1 as [u|e1]; [|now inversion H].
    destruct (verify_password u pw) as [ok ev2]. destruct (negb ok); [now inversion H|discriminate].
Qed.

Lemma session_login_get_logout_witness :
  exists ev s' resp,
    Session.post (Some [mkUser "user" (mkHash DEFAULT_COST "user#vX78")]) None "user" "user#vX78"
      = (ev, s', Ok resp) /\
    (exists h, SessionApi.get s' = Ok (h, "user")) /\
    SessionApi.get (fst (Session.delete s')) = Err unauthorized.
Proof.
  eexists; eexists; eexists. split; [reflexivity|].
  destruct (session_login_get_logout (Some [mkUser "user" (mkHash DEFAULT_COST "user#vX78")]) None
              "user" "user#vX78" _ _ _ eq_refl) as [Hok [_ Hdel]].
  split; [exact (proj2 (Hok _ eq_refl))|exact Hdel].
Defined.

End SessionApiProofs.

Module PasswordResetExtraProofs.
Import PasswordReset FsFacts.
Local Open Scope Z_scope.

Lemma update_table_in (now : Z) (t : Table) (x : PasswordResetRequest) :
  In x (update_table now t) <-> In x t /\ now <= expiration x.
Proof.
  unfold update_table. rewrite filter_In. destruct (Z.ltb_spec (expiration x) now); simpl;
    split; intros [H1 H2]; try discriminate; try lia; split; auto.
Qed.

Lemma update_table_app (now : Z) (t1 t2 : Table) :
  update_table now (t1 ++ t2) = update_table now t1 ++ update_table now t2.
Proof. unfold update_table. apply filter_app. Qed.

(** A request just created is found again by its token by
    [PasswordResetRequest::from_token] as long as neither clock reading is
    past its expiration. *)
Theorem create_then_from_token (now now_purge now_query : Z) (fresh_id uid : string)
    (t t' : Table) (r : PasswordResetRequest) :
  create now fresh_id uid t = (t', Ok r) ->
  now_purge <= expiration r -> now_query <= expiration r ->
  snd (from_token now_purge now_query (request_id r) t') = Ok r /\
  request_id r = fresh_id /\ user_id r = uid.
Proof.
  unfold create. intros H Hp Hq.
  destruct (existsb (fun x => String.eqb (request_id x) fresh_id) (update_table now t)) eqn:Hex;
    [discriminate|].
  injection H as <- <-. simpl in *. split; [|split; reflexivity].
  unfold from_token. rewrite update_table_app, find_app.
  rewrite find_none_forall.
  - unfold update_table at 2. simpl.
    destruct (Z.ltb_spec (now + EXPIRY) now_purge); [lia|]. simpl.
    destruct (Z.leb_spec now_query (now + EXPIRY)); [|lia]. now rewrite String.eqb_refl.
  - intros x Hx. apply update_table_in in Hx as [Hx _].
    apply andb_false_intro2.
    destruct (String.eqb (request_id x) fresh_id) eqn:E; [|reflexivity].
    exfalso. assert (Hin : existsb (fun x => String.eqb (request_id x) fresh_id)
                             (update_table now t) = true) by (apply existsb_exists; now exists x).
    congruence.
Qed.

Lemma create_then_from_token_witness :
  snd (from_token 2000 3000 "token-new"
         (fst (create 1000 "token-new" "id-bob" [mkRequest "token-old" "id-alice" 10])))
    = Ok (mkRequest "token-new" "id-bob" (1000 + EXPIRY)) /\
  request_id (mkRequest "token-new" "id-bob" (1000 + EXPIRY)) = "token-new" /\
  user_id (mkRequest "token-new" "id-bob" (1000 + EXPIRY)) = "id-bob".
Proof.
  exact (create_then_from_token 1000 2000 3000 "token-new" "id-bob"
           [mkRequest "token-old" "id-alice" 10]
           (fst (create 1000 "token-new" "id-bob" [mkRequest "token-old" "id-alice" 10]))
           (mkRequest "token-new" "id-bob" (1000 + EXPIRY))
           eq_refl ltac:(unfold EXPIRY; simpl; lia) ltac:(unfold EXPIRY; simpl; lia)).
Defined.

(** [PasswordResetRequest::delete] consumes the token: [from_token] no longer
    finds it, at any time; every other request still valid at the deletion is
    kept. *)
Theorem delete_consumes_token (now now_purge now_query : Z) (r : PasswordResetRequest) (t : Table) :
  snd (from_token now_purge now_query (request_id r) (PasswordReset.delete now r t)) = Err unauthorized /\
  (forall x, In x t -> request_id x <> request_id r -> now <= expiration x ->
             In x (PasswordReset.delete now r t)).
Proof.
  split.
  - unfold from_token. rewrite find_none_forall; [reflexivity|].
    intros x Hx. apply update_table_in in Hx as [Hx _].
    unfold PasswordReset.delete in Hx. apply update_table_in in Hx as [Hx _].
    apply filter_In in Hx as [_ Hx].
    apply andb_false_intro2. destruct (String.eqb (request_id x) (request_id r)); [discriminate|reflexivity].
  - intros x Hx Hne Hle. unfold PasswordReset.delete. apply update_table_in. split; [|exact Hle].
    apply filter_In. split; [exact Hx|].
    destruct (String.eqb (request_id x) (request_id r)) eqn:E; [|reflexivity].
    apply String.eqb_eq in E. contradiction.
Qed.

Lemma delete_consumes_token_witness :
  In (mkRequest "token-b" "id-bob" 5000)
     (PasswordReset.delete 1000 (mkRequest "token-a" "id-alice" 5000)
        [mkRequest "token-a" "id-alice" 5000; mkRequest "token-b" "id-bob" 5000]).
Proof.
  apply (proj2 (delete_consumes_token 1000 0 0 (mkRequest "token-a" "id-alice" 5000)
                  [mkRequest "token-a" "id-alice" 5000; mkRequest "token-b" "id-bob" 5000]));
    [simpl; auto|discriminate|simpl; lia].
Defined.

(** [PasswordResetRequest::from_token] only ever returns a request of the
    table with the given token that is [valid] at the query time. *)
Theorem from_token_sound (now_purge now_query : Z) (token : string) (t t' : Table)
    (r : PasswordResetRequest) :
  from_token now_purge now_query token t = (t', Ok r) ->
  request_id r = token /\ valid now_query r = true /\ In r t /\ now_purge <= expiration r.
Proof.
  unfold from_token. intro H.
  destruct (find _ (update_table now_purge t)) as [x|] eqn:Hf; [|discriminate].
  injection H as _ <-. apply find_some in Hf as [Hin Hx].
  apply andb_prop in Hx as [Hv Hid]. apply String.eqb_eq in Hid.
  apply update_table_in in Hin as [Hin Hle].
  repeat split; assumption.
Qed.

Lemma from_token_sound_witness :
  valid 1000 (mkRequest "token-bob" "id-bob" 5000) = true.
Proof.
  exact (proj1 (proj2 (from_token_sound 1000 1000 "token-bob"
                         [mkRequest "token-bob" "id-bob" 5000; mkRequest "token-old" "id-alice" 10]
                         [mkRequest "token-bob" "id-bob" 5000] _ eq_refl))).
Defined.

End PasswordResetExtraProofs.

Module AccountExtraProofs.
Import Bcrypt PasswordReset Account AccountFixture FsFacts.

Lemma bind_ok_inv {A B : Type} (m : M A) (k : A -> M B) (d d' : Db) (b : B) :
  bind m k d = Ok (b, d') -> exists a d1, m d = Ok (a, d1) /\ k a d1 = Ok (b, d').
Proof.
  unfold bind. destruct (m d) as [[a d1]|e]; [|discriminate]. intro H. now exists a, d1.
Qed.

Lemma bind_err {A B : Type} (m : M A) (k : A -> M B) (d : Db) (e : HttpError) :
  m d = Err e -> bind m k d = Err e.
Proof. unfold bind. now intros ->. Qed.

Lemma initiator_of_db (ss : list (string * option string)) (sid : string) (d d1 : Db)
    (i : option User) :
  initiator_of ss sid d = Ok (i, d1) -> d1 = d.
Proof.
  unfold initiator_of. destruct (find _ ss) as [[k [uid|]]|].
  - unfold bind, from_id. destruct (find _ (users d)); [|discriminate].
    unfold ret. now intros [= _ <-].
  - unfold ret. now intros [= _ <-].
  - unfold ret. now intros [= _ <-].
Qed.

Lemma notify_db (env : Env) (t : User) (subject : string) (d d1 : Db) (u : unit) :
  notify env t subject d = Ok (u, d1) -> d1 = d.
Proof.
  unfold notify. destruct (mailbox env t) as [m|]; [|unfold fail; discriminate].
  destruct (send_email env m subject); [unfold ret; now intros [= _ <-]|unfold fail; discriminate].
Qed.

Lemma lift_db {A : Type} (r : result A HttpError) (d d1 : Db) (a : A) :
  lift r d = Ok (a, d1) -> d1 = d /\ r = Ok a.
Proof. unfold lift. destruct r; [now intros [= -> <-]|discriminate]. Qed.

Lemma update_password_spec (t : User) (pw : string) (d d1 : Db) (t' : User) :
  update_password t pw d = Ok (t', d1) ->
  (forall x, In x (users d1) -> user_id x = user_id t -> verify_password x pw = true) /\
  (forall x, In x (users d) -> user_id x <> user_id t -> In x (users d1)) /\
  password_reset d1 = password_reset d.
Proof.
  unfold update_password. destruct (find _ (users d)) as [u|]; [|discriminate].
  intros [= _ <-]. simpl. split; [|split; [|reflexivity]].
  - intros x Hx Hid. apply in_map_iff in Hx as [y [Hy _]].
    destruct (String.eqb (user_id y) (user_id t)) eqn:E.
    + subst x. unfold verify_password, verify. simpl. apply String.eqb_refl.
    + subst x. apply String.eqb_neq in E. contradiction.
  - intros x Hx Hne. apply in_map_iff. exists x. split; [|exact Hx].
    destruct (String.eqb (user_id x) (user_id t)) eqn:E; [|reflexivity].
    apply String.eqb_eq in E. contradiction.
Qed.

Lemma log_out_no_initiator (ss : list (string * option string)) (sid : string) (d : Db) :
  initiator_of (log_out ss sid) sid d = Ok (None, d).
Proof.
  unfold initiator_of, log_out. rewrite find_none_forall; [reflexivity|].
  intros x Hx. apply filter_In in Hx as [_ Hx].
  destruct (String.eqb (fst x) sid); [discriminate|reflexivity].
Qed.

(** [verify_password_strength] accepts exactly the passwords of 8 to 70
    bytes that [zxcvbn] scores at least 3; a password of the wrong length is
    refused before the estimator is consulted, so its answer does not depend
    on it. *)
Theorem verify_password_strength_spec (env : Env) (pw : string) (user_inputs : list string) :
  (verify_password_strength env pw user_inputs = Ok tt <->
     (8 <= String.length pw <= 70 /\ 3 <= zxcvbn_score env pw user_inputs)) /\
  ((String.length pw < 8 \/ 70 < String.length pw) ->
     forall env', verify_password_strength env' pw user_inputs
                  = verify_password_strength env pw user_inputs).
Proof.
  unfold verify_password_strength. split.
  - destruct (Nat.ltb_spec (String.length pw) 8); [split; [discriminate|lia]|].
    destruct (Nat.ltb_spec 70 (String.length pw)); [split; [discriminate|lia]|].
    destruct (Nat.ltb_spec (zxcvbn_score env pw user_inputs) 3).
    + split; [discriminate|lia].
    + split; [intros _; lia|reflexivity].
  - intros H env'.
    destruct (Nat.ltb_spec (String.length pw) 8); [reflexivity|].
    destruct (Nat.ltb_spec 70 (String.length pw)); [reflexivity|lia].
Qed.

Lemma verify_password_strength_spec_witness :
  verify_password_strength env0 "short" [] =
  verify_password_strength (mkEnv 0 "" (fun _ _ => 0) (fun _ => None) (fun _ _ => false)
                              (fun _ => None)) "short" [].
Proof.
  symmetry. apply (proj2 (verify_password_strength_spec env0 "short" [])). simpl. lia.
Defined.

(** A password change proved by the old password needs a session of the very
    account named by the email: without a session it is 401 Unauthorized,
    with the session of another account, or for an email no account has, 403
    Forbidden; either way nothing changes. *)
Theorem put_password_proof_gate (env : Env) (st : Store) (sid : string)
    (data : AccountPasswordPutData) (proof pw : string) :
  put_proof_type data = ProofPassword -> put_proof data = Some proof ->
  put_password data = Some pw ->
  (initiator_of (sessions st) sid (db st) = Ok (None, db st) ->
     put env st sid data = (st, Err unauthorized)) /\
  (forall i, initiator_of (sessions st) sid (db st) = Ok (Some i, db st) ->
     match find (fun u => String.eqb (email u) (put_email data)) (users (db st)) with
     | Some t => user_id t <> user_id i
     | None => True
     end ->
     put env st sid data = (st, Err forbidden)).
Proof.
  intros Ht Hp Hw. unfold put, put_body, bind. split.
  - intro Hi. rewrite Hi. unfold from_email. rewrite Ht, Hp, Hw.
    destruct (find _ (users (db st))); reflexivity.
  - intros i Hi Hne. rewrite Hi. unfold from_email. rewrite Ht, Hp, Hw.
    destruct (find _ (users (db st))) as [t|]; [|reflexivity].
    destruct (String.eqb (user_id i) (user_id t)) eqn:E; [|reflexivity].
    apply String.eqb_eq in E. now symmetry in E.
Qed.

Lemma put_password_proof_gate_witness :
  put env0 store0 "sid-anon" (mkPutData "alice@example.com" (Some "new password!") (Some "alice#old") ProofPassword)
    = (store0, Err unauthorized) /\
  put env0 store0 "sid-alice" (mkPutData "bob@example.com" (Some "new password!") (Some "alice#old") ProofPassword)
    = (store0, Err forbidden).
Proof.
  split.
  - exact (proj1 (put_password_proof_gate env0 store0 "sid-anon"
                    (mkPutData "alice@example.com" (Some "new password!") (Some "alice#old") ProofPassword)
                    "alice#old" "new password!" eq_refl eq_refl eq_refl) eq_refl).
  - exact (proj2 (put_password_proof_gate env0 store0 "sid-alice"
                    (mkPutData "bob@example.com" (Some "new password!") (Some "alice#old") ProofPassword)
                    "alice#old" "new password!" eq_refl eq_refl eq_refl) alice eq_refl
                  ltac:(simpl; discriminate)).
Defined.

(** A caller with a session can only change a password by proving the old
    one: any other request (a recovery, a reset token, or a password-proof
    request without the proof or the new password) is 400 Bad Request and
    changes nothing. *)
Theorem put_logged_in_needs_password_proof (env : Env) (st : Store) (sid : string)
    (data : AccountPasswordPutData) (i : User) :
  initiator_of (sessions st) sid (db st) = Ok (Some i, db st) ->
  (put_proof_type data <> ProofPassword \/ put_proof data = None \/ put_password data = None) ->
  put env st sid data = (st, Err bad_request).
Proof.
  intros Hi Hd. unfold put, put_body, bind. rewrite Hi. unfold from_email.
  destruct data as [em [pw|] [pr|] [| |]]; simpl in *;
    destruct (find _ (users (db st))); try reflexivity;
    destruct Hd as [H|[H|H]]; try congruence.
Qed.

Lemma put_logged_in_needs_password_proof_witness :
  put env0 store0 "sid-alice" (mkPutData "alice@example.com" (Some "new password!") (Some "token-bob") ProofToken)
    = (store0, Err bad_request).
Proof.
  apply (put_logged_in_needs_password_proof env0 store0 "sid-alice" _ alice eq_refl).
  left. discriminate.
Defined.

(** A password recovery request (no session, no proof, no password) is
    answered 202 Accepted whether or not an account has the email: for an
    unknown email nothing but the caller's session changes; for a known one
    (the reset row inserted and the mail sent) a reset request for that
    account is stored. *)
Theorem put_recovery_uniform_response (env : Env) (st : Store) (sid : string) (em : string) :
  initiator_of (sessions st) sid (db st) = Ok (None, db st) ->
  (find (fun u => String.eqb (email u) em) (users (db st)) = None ->
     put env st sid (mkPutData em None None ProofNone)
       = (mkStore (db st) (log_out (sessions st) sid), Ok (finish 202))) /\
  (forall t m,
     find (fun u => String.eqb (email u) em) (users (db st)) = Some t ->
     existsb (fun r => String.eqb (request_id r) (fresh_id env))
             (update_table (now env) (password_reset (db st))) = false ->
     mailbox env t = Some m -> send_email env m "Password reset" = true ->
     exists st', put env st sid (mkPutData em None None ProofNone) = (st', Ok (finish 202)) /\
       users (db st') = users (db st) /\ sessions st' = log_out (sessions st) sid /\
       exists r, In r (password_reset (db st')) /\ PasswordReset.user_id r = user_id t /\
                 request_id r = fresh_id env).
Proof.
  intro Hi. unfold put, put_body, bind. rewrite Hi. unfold from_email. simpl. split.
  - intros Hn. rewrite Hn. reflexivity.
  - intros t m Ht Hex Hm Hs. rewrite Ht.
    unfold request_password_reset, create. rewrite Hex. simpl.
    unfold notify. rewrite Hm, Hs. simpl.
    eexists. split; [reflexivity|]. simpl. split; [reflexivity|]. split; [reflexivity|].
    eexists. split; [apply in_or_app; right; left; reflexivity|]. split; reflexivity.
Qed.

Lemma put_recovery_uniform_response_witness :
  put env0 store0 "sid-anon" (mkPutData "nobody@example.com" None None ProofNone)
    = (mkStore (db store0) (log_out (sessions store0) "sid-anon"), Ok (finish 202)) /\
  exists st', put env0 store0 "sid-anon" (mkPutData "alice@example.com" None None ProofNone)
                = (st', Ok (finish 202)) /\
    users (db st') = users (db store0) /\ sessions st' = log_out (sessions store0) "sid-anon" /\
    exists r, In r (password_reset (db st')) /\ PasswordReset.user_id r = "id-alice" /\ request_id r = "token-new".
Proof.
  split.
  - apply (proj1 (put_recovery_uniform_response env0 store0 "sid-anon" "nobody@example.com" eq_refl)).
    reflexivity.
  - apply (proj2 (put_recovery_uniform_response env0 store0 "sid-anon" "alice@example.com" eq_refl)
             alice "alice@example.com"); reflexivity.
Defined.

(** A successful password change, by old password or by reset token, answers
    204 No Content and leaves the account named by the email with a hash that
    verifies the new password; every account with another id is kept as it
    was. *)
Theorem put_password_change_sets_hash (env : Env) (st st' : Store) (sid : string)
    (data : AccountPasswordPutData) (resp : HttpResponse) :
  put env st sid data = (st', Ok resp) -> put_proof_type data <> ProofNone ->
  resp = finish 204 /\
  exists t pw, find (fun u => String.eqb (email u) (put_email data)) (users (db st)) = Some t /\
    put_password data = Some pw /\
    (forall x, In x (users (db st')) -> user_id x = user_id t -> verify_password x pw = true) /\
    (forall x, In x (users (db st)) -> user_id x <> user_id t -> In x (users (db st'))).
Proof.
  intros H Hpt. unfold put in H.
  destruct (put_body env (sessions st) sid data (db st)) as [[r d']|e] eqn:Hb; [|discriminate].
  injection H as <- <-. simpl.
  unfold put_body in Hb.
  apply bind_ok_inv in Hb as [i [d1 [Hi Hb]]]. apply initiator_of_db in Hi. subst d1.
  apply bind_ok_inv in Hb as [tg [d1 [Ht Hb]]]. unfold from_email in Ht.
  injection Ht as <- <-.
  destruct data as [em [pw|] [pr|] pt]; simpl in *;
    destruct i as [i|]; destruct (find _ (users (db st))) as [t|] eqn:Hf;
    destruct pt; try congruence;
    try (unfold fail in Hb; discriminate).
  - (* old password *)
    destruct (String.eqb (user_id i) (user_id t)); [|unfold fail in Hb; discriminate].
    destruct (verify_password t pr); [|unfold fail in Hb; discriminate].
    apply bind_ok_inv in Hb as [u1 [d2 [Hl Hb]]]. apply lift_db in Hl as [-> _].
    apply bind_ok_inv in Hb as [t' [d2 [Hu Hb]]].
    apply bind_ok_inv in Hb as [u2 [d3 [Hn Hb]]]. apply notify_db in Hn. subst d3.
    unfold ret in Hb. injection Hb as <- <-.
    destruct (update_password_spec t pw _ _ _ Hu) as [H1 [H2 _]].
    split; [reflexivity|]. exists t, pw. repeat split; assumption.
  - (* reset token *)
    destruct (uuid_from_str env pr) as [tok|]; [|unfold fail in Hb; discriminate].
    apply bind_ok_inv in Hb as [req [d2 [Hr Hb]]].
    assert (Hu2 : users d2 = users (db st)).
    { unfold request_from_token in Hr.
      destruct (from_token _ _ _ _) as [t1 [x|e]]; [|discriminate]. now injection Hr as _ <-. }
    apply bind_ok_inv in Hb as [u1 [d3 [Hl Hb]]]. apply lift_db in Hl as [-> _].
    apply bind_ok_inv in Hb as [t' [d3 [Hu Hb]]].
    apply bind_ok_inv in Hb as [u2 [d4 [Hd Hb]]].
    assert (Hu4 : users d4 = users d3).
    { unfold request_delete in Hd. now injection Hd as _ <-. }
    apply bind_ok_inv in Hb as [u3 [d5 [Hn Hb]]]. apply notify_db in Hn. subst d5.
    unfold ret in Hb. injection Hb as <- <-.
    destruct (update_password_spec t pw _ _ _ Hu) as [H1 [H2 _]].
    split; [reflexivity|]. exists t, pw. rewrite Hu4. split; [reflexivity|]. split; [reflexivity|].
    split; [exact H1|]. intros x Hx Hne. apply H2; [rewrite Hu2; exact Hx|exact Hne].
Qed.

Lemma put_password_change_sets_hash_witness :
  exists st' pw,
    put env0 store0 "sid-alice"
        (mkPutData "alice@example.com" (Some "correct horse battery") (Some "alice#old") ProofPassword)
      = (st', Ok (finish 204)) /\
    Some pw = Some "correct horse battery" /\
    forall x, In x (users (db st')) -> user_id x = "id-alice" -> verify_password x pw = true.
Proof.
  eexists. exists "correct horse battery". split; [reflexivity|]. split; [reflexivity|].
  destruct (put_password_change_sets_hash env0 store0 _ "sid-alice"
              (mkPutData "alice@example.com" (Some "correct horse battery") (Some "alice#old") ProofPassword)
              (finish 204) eq_refl ltac:(discriminate))
    as [_ [t [pw [Ht [Hpw [H1 _]]]]]].
  simpl in Ht, Hpw. injection Ht as <-. injection Hpw as <-. exact H1.
Defined.

(** A reset token works once: after a successful password reset with it,
    the very same request from the same client fails, and changes nothing. *)
Theorem put_token_reset_not_replayable (env : Env) (st st' : Store) (sid : string)
    (data : AccountPasswordPutData) (resp : HttpResponse) :
  put env st sid data = (st', Ok resp) -> put_proof_type data = ProofToken ->
  exists e, put env st' sid data = (st', Err e).
Proof.
  intros H Hpt. unfold put in H.
  destruct (put_body env (sessions st) sid data (db st)) as [[r d']|e] eqn:Hb; [|discriminate].
  injection H as <- <-. simpl.
  unfold put_body in Hb.
  apply bind_ok_inv in Hb as [i [d1 [Hi Hb]]]. apply initiator_of_db in Hi. subst d1.
  apply bind_ok_inv in Hb as [tg [d1 [Ht Hb]]]. unfold from_email in Ht.
  injection Ht as <- <-.
  destruct data as [em [pw|] [pr|] pt]; simpl in *; subst pt;
    destruct i as [i|]; destruct (find _ (users (db st))) as [t|] eqn:Hf;
    try (unfold fail in Hb; discriminate).
  destruct (uuid_from_str env pr) as [tok|] eqn:Hu; [|unfold fail in Hb; discriminate].
  apply bind_ok_inv in Hb as [req [d2 [Hr Hb]]].
  assert (Hreq : request_id req = tok).
  { unfold request_from_token in Hr.
    destruct (from_token (now env) (now env) tok (password_reset (db st)))
      as [t1 [x|e]] eqn:Hft; [|discriminate].
    injection Hr as <- _. unfold from_token in Hft.
    destruct (find _ (update_table _ _)) as [y|] eqn:Hx; [|discriminate].
    injection Hft as _ <-.
    apply find_some in Hx as [_ Hx]. apply andb_prop in Hx as [_ Hx]. now apply String.eqb_eq. }
  apply bind_ok_inv in Hb as [u1 [d3 [Hl Hb]]]. apply lift_db in Hl as [-> _].
  apply bind_ok_inv in Hb as [t' [d3 [Hup Hb]]].
  apply bind_ok_inv in Hb as [u2 [d4 [Hd Hb]]].
  assert (Htab : password_reset d4 = PasswordReset.delete (now env) req (password_reset d3)).
  { unfold request_delete in Hd. now injection Hd as _ <-. }
  apply bind_ok_inv in Hb as [u3 [d5 [Hn Hb]]]. apply notify_db in Hn. subst d5.
  unfold ret in Hb. injection Hb as _ <-.
  unfold put, put_body. cbn [sessions db]. unfold bind at 1.
  rewrite log_out_no_initiator. unfold bind, from_email. simpl.
  destruct (find _ (users d4)) as [t2|]; [|eexists; reflexivity].
  rewrite Hu. unfold request_from_token.
  replace (from_token (now env) (now env) tok (password_reset d4))
    with (password_reset d4, @Err PasswordResetRequest HttpError unauthorized).
  - eexists; reflexivity.
  - unfold from_token. rewrite find_none_forall; [reflexivity|].
    intros x Hx. apply PasswordResetExtraProofs.update_table_in in Hx as [Hx _].
    rewrite Htab in Hx. unfold PasswordReset.delete in Hx.
    apply PasswordResetExtraProofs.update_table_in in Hx as [Hx _].
    apply filter_In in Hx as [_ Hx]. rewrite Hreq in Hx.
    apply andb_false_intro2. destruct (String.eqb (request_id x) tok); [discriminate|reflexivity].
Qed.

Lemma put_token_reset_not_replayable_witness :
  exists st' e,
    put env0 store0 "sid-anon"
        (mkPutData "bob@example.com" (Some "correct horse battery") (Some "token-bob") ProofToken)
      = (st', Ok (finish 204)) /\
    put env0 st' "sid-anon"
        (mkPutData "bob@example.com" (Some "correct horse battery") (Some "token-bob") ProofToken)
      = (st', Err e).
Proof.
  destruct (put_token_reset_not_replayable env0 store0 _ "sid-anon"
              (mkPutData "bob@example.com" (Some "correct horse battery") (Some "token-bob") ProofToken)
              (finish 204) eq_refl eq_refl) as [e He].
  eexists; exists e. split; [reflexivity|exact He].
Defined.

End AccountExtraProofs.
